(** * Verification of the tradestat batch pipeline

    A shallow embedding of the orchestration core of the pipeline
    (chunker, retry policy, progress ledger, transform stages, worker,
    browser pool and request throttler) together with the properties the
    specification states about them. *)

From Stdlib Require Import ZArith QArith Qminmax Qpower Lia Lqa List Ascii String.
From Stdlib Require Import Floats.PrimFloat Numbers.Cyclic.Int63.Uint63.
From stdpp Require Import gmap strings list fin_maps.

Local Open Scope Z_scope.

(** Python exceptions that the embedded code raises or catches.  The
    messages of the errors that the interpreter raises itself (attribute,
    type and index errors) are abbreviated. *)
Inductive PyError : Type :=
| ValueError (msg : string)
| KeyError (key : string)
| AttributeError (msg : string)
| TypeError (msg : string)
| IndexError (msg : string)
| TimeoutError
| OSError (msg : string)
| RuntimeError (msg : string)
| CancelledError
| KeyboardInterrupt.

(** The classes named in [except] clauses and [retriable_exceptions]. *)
Inductive PyClass : Type :=
| ClsBaseException | ClsException | ClsValueError | ClsKeyError
| ClsIndexError | ClsAttributeError | ClsTypeError | ClsTimeoutError | ClsOSError
| ClsRuntimeError | ClsCancelledError | ClsKeyboardInterrupt.

Definition class_of (e : PyError) : PyClass :=
  match e with
  | ValueError _ => ClsValueError
  | KeyError _ => ClsKeyError
  | IndexError _ => ClsIndexError
  | AttributeError _ => ClsAttributeError
  | TypeError _ => ClsTypeError
  | TimeoutError => ClsTimeoutError
  | OSError _ => ClsOSError
  | RuntimeError _ => ClsRuntimeError
  | CancelledError => ClsCancelledError
  | KeyboardInterrupt => ClsKeyboardInterrupt
  end.

Definition PyClass_eqb (a b : PyClass) : bool :=
  match a, b with
  | ClsBaseException, ClsBaseException | ClsException, ClsException
  | ClsValueError, ClsValueError | ClsKeyError, ClsKeyError
  | ClsIndexError, ClsIndexError
  | ClsAttributeError, ClsAttributeError | ClsTypeError, ClsTypeError
  | ClsTimeoutError, ClsTimeoutError | ClsOSError, ClsOSError
  | ClsRuntimeError, ClsRuntimeError
  | ClsCancelledError, ClsCancelledError
  | ClsKeyboardInterrupt, ClsKeyboardInterrupt => true
  | _, _ => false
  end.

(** [issubclass(c, parent)]: since Python 3.8 [asyncio.CancelledError]
    derives from [BaseException] only, like [KeyboardInterrupt]. *)
Definition issubclass (c parent : PyClass) : bool :=
  match parent with
  | ClsBaseException => true
  | ClsException =>
      match c with
      | ClsBaseException | ClsCancelledError | ClsKeyboardInterrupt => false
      | _ => true
      end
  | _ => PyClass_eqb c parent
  end.

(** [repr(s)] of a string that holds no quote, backslash or control
    character. *)
Definition repr_str (s : string) : string := "'" ++ s ++ "'".

(** [str(e)] *)
Definition error_message (e : PyError) : string :=
  match e with
  | ValueError m | IndexError m | AttributeError m | TypeError m
  | OSError m | RuntimeError m => m
  | KeyError k => repr_str k
  | TimeoutError | CancelledError | KeyboardInterrupt => ""
  end.

(** [isinstance(e, classes)] for a tuple of classes, as an [except]
    clause tests it. *)
Definition isinstance (e : PyError) (classes : list PyClass) : bool :=
  existsb (issubclass (class_of e)) classes.

(** * pipeline/chunker.py *)
Module Chunker.

(** [for i in range(start, stop, step)] with [step > 0]: the indices in
    the order the loop visits them. *)
Fixpoint range_from (fuel : nat) (i stop step : Z) : list Z :=
  match fuel with
  | O => []
  | S fuel' =>
      if i <? stop then i :: range_from fuel' (i + step) stop step else []
  end.

(** Python normalises a slice bound against the length of the list. *)
Definition clamp_index (len i : Z) : Z :=
  if i <? 0 then Z.max 0 (i + len) else Z.min i len.

(** [data[lo:hi]] *)
Definition py_slice {A} (data : list A) (lo hi : Z) : list A :=
  let n := Z.of_nat (length data) in
  let l := clamp_index n lo in
  let h := clamp_index n hi in
  take (Z.to_nat (h - l)) (drop (Z.to_nat l) data).

(** [ceil(total / chunk_size)] on integers, [chunk_size > 0]. *)
Definition ceil_div (n s : Z) : Z := (n + s - 1) / s.

(** [chunk_list(data, chunk_size)] *)
Definition chunk_list {A} (data : list A) (chunk_size : Z)
  : PyError + list (list A) :=
  if chunk_size <=? 0 then inl (ValueError "chunk_size must be > 0")
  else
    let total := Z.of_nat (length data) in
    inr (fold_left
           (fun chunks i => chunks ++ [py_slice data i (i + chunk_size)])
           (range_from (length data) 0 total chunk_size)
           []).

Definition sum_lengths {A} (chunks : list (list A)) : nat :=
  foldr (fun c acc => (length c + acc)%nat) 0%nat chunks.

(** ** Properties *)

(** [ceil_div n s] is the least number of chunks of size [s] that hold
    [n] items. *)
Lemma ceil_div_spec (n s : Z) :
  0 < s -> n <= ceil_div n s * s < n + s.
Proof.
  intros Hs. unfold ceil_div.
  pose proof (Z.div_mod (n + s - 1) s ltac:(lia)).
  pose proof (Z.mod_pos_bound (n + s - 1) s Hs). lia.
Qed.

Lemma fold_append_map {A B} (f : A -> B) (l : list A) (acc : list B) :
  fold_left (fun chunks i => chunks ++ [f i]) l acc = acc ++ map f l.
Proof.
  revert acc. induction l as [|x l IH]; intros acc; simpl.
  - by rewrite app_nil_r.
  - rewrite IH. by rewrite <- app_assoc.
Qed.

Lemma py_slice_nonneg {A} (data : list A) (i s : Z) :
  0 <= i -> 0 < s ->
  py_slice data i (i + s) = take (Z.to_nat s) (drop (Z.to_nat i) data).
Proof.
  intros Hi Hs. unfold py_slice, clamp_index.
  destruct (Z.ltb_spec i 0); [lia|].
  destruct (Z.ltb_spec (i + s) 0); [lia|].
  remember (Z.of_nat (length data)) as n eqn:Hn.
  destruct (Z.le_gt_cases n i) as [Hle|Hlt].
  - rewrite !(drop_ge data) by lia. by rewrite !take_nil.
  - rewrite (Z.min_l i n) by lia.
    destruct (Z.le_gt_cases (i + s) n) as [Hle'|Hgt'].
    + rewrite Z.min_l by lia. f_equal. lia.
    + rewrite Z.min_r by lia.
      rewrite !take_ge; [done| |]; rewrite length_drop; lia.
Qed.

Lemma sum_lengths_concat {A} (chunks : list (list A)) :
  sum_lengths chunks = length (concat chunks).
Proof.
  induction chunks as [|c cs IH]; simpl; [done|].
  rewrite length_app. by rewrite IH.
Qed.

Section Slices.
Context {A : Type} (data : list A) (s : Z).
Hypothesis Hs : 0 < s.

Let total := Z.of_nat (length data).
Let slice (i : Z) := py_slice data i (i + s).

Lemma range_concat (fuel : nat) (i : Z) :
  0 <= i -> total - i <= Z.of_nat fuel ->
  concat (map slice (range_from fuel i total s)) = drop (Z.to_nat i) data.
Proof using Hs.
  revert i. induction fuel as [|fuel IH]; intros i Hi Hfuel; simpl.
  - rewrite drop_ge; [done|]. subst total. lia.
  - destruct (Z.ltb_spec i total) as [Hlt|Hge]; simpl.
    + rewrite IH by lia. unfold slice. rewrite py_slice_nonneg by lia.
      replace (Z.to_nat (i + s)) with (Z.to_nat i + Z.to_nat s)%nat by lia.
      rewrite <- drop_drop. apply take_drop.
    + rewrite drop_ge; [done|]. subst total. lia.
Qed.

Lemma range_length (fuel : nat) (i : Z) :
  0 <= i -> total - i <= Z.of_nat fuel ->
  Z.of_nat (length (range_from fuel i total s)) = Z.max 0 (ceil_div (total - i) s).
Proof using Hs.
  unfold ceil_div.
  revert i. induction fuel as [|fuel IH]; intros i Hi Hfuel; simpl.
  - assert ((total - i + s - 1) / s <= 0); [|lia].
    apply Z.lt_succ_r. apply Z.div_lt_upper_bound; lia.
  - destruct (Z.ltb_spec i total) as [Hlt|Hge]; simpl.
    + rewrite Nat2Z.inj_succ, IH by lia.
      replace (total - i + s - 1) with ((total - (i + s) + s - 1) + 1 * s) by lia.
      rewrite Z.div_add by lia.
      assert (0 <= (total - (i + s) + s - 1) / s); [|lia].
      apply Z.div_pos; lia.
    + assert ((total - i + s - 1) / s <= 0); [|lia].
      apply Z.lt_succ_r. apply Z.div_lt_upper_bound; lia.
Qed.

Lemma range_lookup (fuel : nat) (i : Z) (j : nat) (x : Z) :
  range_from fuel i total s !! j = Some x ->
  x = i + Z.of_nat j * s /\ x < total.
Proof using Type.
  revert i j. induction fuel as [|fuel IH]; intros i j; simpl; [done|].
  destruct (Z.ltb_spec i total) as [Hlt|Hge]; [|done].
  destruct j as [|j]; simpl.
  - intros [= <-]. lia.
  - intros H. apply IH in H. lia.
Qed.

Lemma slice_length (i : Z) :
  0 <= i -> i < total ->
  Z.of_nat (length (slice i)) = Z.min s (total - i).
Proof using Hs.
  intros Hi Hlt. unfold slice. rewrite py_slice_nonneg by lia.
  rewrite length_take, length_drop. subst total. lia.
Qed.

End Slices.

(** The chunks are the slices at 0, S, 2S, ... *)
Lemma chunk_list_ok {A} (data : list A) (s : Z) :
  0 < s ->
  chunk_list data s =
    inr (map (fun i => py_slice data i (i + s))
           (range_from (length data) 0 (Z.of_nat (length data)) s)).
Proof.
  intros Hs. unfold chunk_list.
  destruct (Z.leb_spec s 0); [lia|]. by rewrite fold_append_map.
Qed.

(** C6: for a positive chunk size the chunker returns ceil(N/S) chunks
    whose lengths sum to N, which concatenate back to the input in order,
    every chunk but the last of size S and the last one non-empty and of
    size at most S; for a chunk size S <= 0 it raises the configuration
    error (a ValueError in the source). *)
Theorem chunk_list_partition {A} (data : list A) (s : Z) :
  (0 < s ->
   exists chunks,
     chunk_list data s = inr chunks /\
     Z.of_nat (length chunks) = ceil_div (Z.of_nat (length data)) s /\
     sum_lengths chunks = length data /\
     concat chunks = data /\
     (forall (j : nat) (c : list A),
        chunks !! j = Some c ->
        (1 <= Z.of_nat (length c) <= s) /\
        (S j < length chunks -> Z.of_nat (length c) = s)%nat)) /\
  (s <= 0 -> chunk_list data s = inl (ValueError "chunk_size must be > 0")).
Proof.
  split.
  - intros Hs. eexists. split; [by apply chunk_list_ok|].
    pose proof (range_concat data s Hs (length data) 0) as Hcat.
    simpl in Hcat. specialize (Hcat ltac:(lia) ltac:(lia)).
    assert (Hlook : forall (j : nat) (c : list A),
      map (fun i => py_slice data i (i + s))
        (range_from (length data) 0 (Z.of_nat (length data)) s) !! j = Some c ->
      exists x, c = py_slice data x (x + s) /\
        range_from (length data) 0 (Z.of_nat (length data)) s !! j = Some x /\
        x = Z.of_nat j * s /\ x < Z.of_nat (length data)).
    { intros j c H. rewrite list_lookup_fmap in H.
      destruct (range_from _ _ _ _ !! j) as [x|] eqn:Hx; [|done].
      injection H as <-. exists x.
      pose proof (range_lookup data s _ _ _ _ Hx) as [Hx1 Hx2].
      simpl in Hx1, Hx2. repeat split; [lia|exact Hx2]. }
    split; [|split; [|split; [exact Hcat|]]].
    + rewrite length_map, range_length by lia.
      rewrite Z.sub_0_r. apply Z.max_r. apply Z.div_pos; lia.
    + rewrite sum_lengths_concat. by rewrite Hcat.
    + intros j c H. destruct (Hlook j c H) as (x & -> & Hx & -> & Hlt).
      pose proof (slice_length data s Hs (Z.of_nat j * s)) as Hlen.
      simpl in Hlen. specialize (Hlen ltac:(lia) Hlt).
      split; [lia|]. intros Hj. rewrite length_map in Hj.
      destruct (lookup_lt_is_Some_2 _ _ Hj) as [y Hy].
      apply range_lookup in Hy as [-> Hy]. lia.
  - intros Hs. unfold chunk_list. destruct (Z.leb_spec s 0); [done|lia].
Qed.

Lemma chunk_list_partition_witness :
  chunk_list [1; 2; 3; 4; 5] 2 = inr [[1; 2]; [3; 4]; [5]] /\
  chunk_list [1; 2; 3; 4; 5] 0 = inl (ValueError "chunk_size must be > 0").
Proof.
  destruct (chunk_list_partition [1; 2; 3; 4; 5] 2) as [Hpos _].
  destruct (chunk_list_partition [1; 2; 3; 4; 5] 0) as [_ Hneg].
  split; [|apply Hneg; lia].
  destruct (Hpos ltac:(lia)) as (chunks & Heq & _).
  rewrite Heq. f_equal. vm_compute in Heq. by injection Heq.
Defined.

End Chunker.

(** * utils/retry_manager.py

    Delays are Python floats.  The policy is written over the float
    operations it uses, which are given twice: in exact rational
    arithmetic, and in binary64 as the interpreter computes them. *)
Module Retry.

(** The float operations of [get_delay] and of the presets. *)
Class FloatOps (F : Type) : Type := {
  fmul : F -> F -> F;
  fadd : F -> F -> F;
  (** [x ** n] for an int [n] *)
  fpow : F -> Z -> F;
  (** [min(x, y)]: [y] if [y < x], else [x] *)
  fmin : F -> F -> F;
  (** the literal [0.5] *)
  fhalf : F;
  (** the literal of a whole number, as [2.0] *)
  fwhole : Z -> F
}.

(** Exact arithmetic on rationals. *)
#[global] Instance exact : FloatOps Q := {
  fmul := Qmult;
  fadd := Qplus;
  fpow := Qpower;
  fmin := Qmin;
  fhalf := 1 # 2;
  fwhole := inject_Z
}.

(** Binary64 arithmetic with round to nearest, ties to even.  The power
    is by repeated multiplication, which is exact whenever the power is a
    binary64 number, as for exponent 0 and for the base 2.0 of the
    presets. *)
Definition float_pow (x : float) (n : Z) : float :=
  match n with
  | Z0 => 1%float
  | Zpos p => Pos.iter (PrimFloat.mul x) 1%float p
  | Zneg p => PrimFloat.div 1%float (Pos.iter (PrimFloat.mul x) 1%float p)
  end.

Definition float_min (x y : float) : float :=
  if PrimFloat.ltb y x then y else x.

#[global] Instance binary64 : FloatOps float := {
  fmul := PrimFloat.mul;
  fadd := PrimFloat.add;
  fpow := float_pow;
  fmin := float_min;
  fhalf := 0.5%float;
  fwhole := fun z => PrimFloat.of_uint63 (Uint63.of_Z z)
}.

Record RetryConfig (F : Type) : Type := mkRetryConfig {
  max_retries : Z;
  initial_delay : F;
  max_delay : F;
  exponential_base : F;
  jitter : bool
}.
Arguments mkRetryConfig {F} max_retries initial_delay max_delay
  exponential_base jitter.
Arguments max_retries {F} r.
Arguments initial_delay {F} r.
Arguments max_delay {F} r.
Arguments exponential_base {F} r.
Arguments jitter {F} r.

Section Policy.
Context {F : Type} {ops : FloatOps F}.

(** [RetryConfig()] with the defaults of [__init__]. *)
Definition default_config : RetryConfig F :=
  mkRetryConfig 3 (fwhole 1) (fwhole 60) (fwhole 2) true.

Definition SCRAPER_RETRY_CONFIG : RetryConfig F :=
  mkRetryConfig 3 (fwhole 2) (fwhole 30) (fwhole 2) true.
Definition STORAGE_RETRY_CONFIG : RetryConfig F :=
  mkRetryConfig 2 fhalf (fwhole 10) (fwhole 2) true.

(** [RetryConfig.get_delay(attempt)]; [random] is the value that
    [random.random()] returns, read only when [jitter] is set. *)
Definition get_delay (c : RetryConfig F) (attempt : Z) (random : F) : F :=
  let delay := fmul (initial_delay c) (fpow (exponential_base c) attempt) in
  let delay := fmin delay (max_delay c) in
  if jitter c then fmul delay (fadd fhalf random) else delay.

End Policy.

Local Open Scope Q_scope.

(** What a call of the wrapper ends with: a returned value, a raised
    exception of the operation, or the [TypeError] that
    [raise last_exception] gives when [last_exception] is still [None]. *)
Inductive Outcome (A : Type) : Type :=
| Returned (result : A)
| Raised (e : PyError)
| RaisedNone.
Arguments Returned {A} result.
Arguments Raised {A} e.
Arguments RaisedNone {A}.

(** The world a retry loop runs in: the state the wrapped operation
    works on, the stream of [random.random()] values with the number
    already consumed, and the delays slept so far (oldest first). *)
Record World (F S : Type) : Type := mkWorld {
  op_state : S;
  rand : nat -> F;
  rand_used : nat;
  slept : list F
}.
Arguments mkWorld {F S} op_state rand rand_used slept.
Arguments op_state {F S} w.
Arguments rand {F S} w.
Arguments rand_used {F S} w.
Arguments slept {F S} w.

Section Loop.
Context {F : Type} {ops : FloatOps F} {S A : Type}.

(** The wrapped operation: a call either returns or raises, and may
    change its state either way. *)
Definition Operation : Type := S -> (PyError + A) * S.

Variable func : Operation.
Variable config : RetryConfig F.
Variable retriable_exceptions : list PyClass.

(** [delay = config.get_delay(attempt)] followed by the sleep. *)
Definition backoff (attempt : Z) (w : World F S) : World F S :=
  let delay := get_delay config attempt (rand w (rand_used w)) in
  mkWorld (op_state w) (rand w)
    (if jitter config then Datatypes.S (rand_used w) else rand_used w)
    (slept w ++ [delay]).

(** The body of [for attempt in range(config.max_retries + 1)], and the
    [raise last_exception] after the loop. *)
Fixpoint retry_loop (attempts : list Z) (last_exception : option PyError)
    (w : World F S) : Outcome A * World F S :=
  match attempts with
  | [] =>
      (match last_exception with
       | Some e => Raised e
       | None => RaisedNone
       end, w)
  | attempt :: rest =>
      let '(r, s') := func (op_state w) in
      let w' := mkWorld s' (rand w) (rand_used w) (slept w) in
      match r with
      | inr result => (Returned result, w')
      | inl e =>
          if isinstance e retriable_exceptions then
            if (attempt =? max_retries config)%Z then (Raised e, w')
            else retry_loop rest (Some e) (backoff attempt w')
          else (Raised e, w')
      end
  end.

End Loop.

(** [range(n)] *)
Definition py_range (n : Z) : list Z :=
  map Z.of_nat (seq 0 (Z.to_nat n)).

Definition or_default {F} {ops : FloatOps F} (config : option (RetryConfig F))
  : RetryConfig F :=
  match config with
  | Some c => c
  | None => default_config
  end.

(** [retry_async(func, config=..., retriable_exceptions=...)] *)
Definition retry_async {F} {ops : FloatOps F} {S A} (func : @Operation S A)
    (config : option (RetryConfig F)) (retriable_exceptions : list PyClass)
    (w : World F S) : Outcome A * World F S :=
  let config := or_default config in
  retry_loop func config retriable_exceptions
    (py_range (max_retries config + 1)) None w.

(** [retry_sync] runs the same loop and sleeps with [time.sleep]. *)
Definition retry_sync {F} {ops : FloatOps F} {S A} (func : @Operation S A)
    (config : option (RetryConfig F)) (retriable_exceptions : list PyClass)
    (w : World F S) : Outcome A * World F S :=
  let config := or_default config in
  retry_loop func config retriable_exceptions
    (py_range (max_retries config + 1)) None w.

(** An operation instrumented with the number of times it was invoked. *)
Definition counting {S A} (func : @Operation S A) : @Operation (nat * S) A :=
  fun '(n, s) => let '(r, s') := func s in (r, (Datatypes.S n, s')).


(** The operation raises a retriable exception whenever it is invoked. *)
Definition always_fails {S A} (func : @Operation S A)
    (retriable_exceptions : list PyClass) : Prop :=
  forall s, exists e, fst (func s) = inl e /\
                      isinstance e retriable_exceptions = true.


(** An operation whose every call raises [KeyError]. *)
Definition raises_key_error : @Operation unit unit :=
  fun s => (inl (KeyError "hs_code"), s).

(** A world in which nothing has been slept and every draw is 0.0. *)
Definition idle_world {S} (s : S) : World Q S :=
  mkWorld s (fun _ => 0) 0%nat [].

(** ** Properties *)





Section Exhaustion.
Context {F : Type} {ops : FloatOps F} {S A : Type} (func : @Operation S A).
Variable config : RetryConfig F.
Variable classes : list PyClass.
Hypothesis Hfails : always_fails func classes.


Lemma retry_loop_raises (n i : nat) (last : option PyError) (w : World F S) :
  (Z.of_nat i + Z.of_nat n = max_retries config)%Z ->
  exists e w',
    retry_loop (A:=A) func config classes
      (map Z.of_nat (seq i (Datatypes.S n))) last w = (Raised e, w') /\
    isinstance e classes = true.
Proof using Hfails.
  revert i last w. induction n as [|n IH]; intros i last [s rnd used sl] Hi;
    destruct (Hfails s) as (e & He & Hcls);
    destruct (func s) as [r s'] eqn:Hf; simpl in He; subst r.
  - simpl. rewrite Hf, Hcls.
    destruct (Z.eqb_spec (Z.of_nat i) (max_retries config)); [|lia]. eauto.
  - destruct (IH (Datatypes.S i) (Some e)
                (backoff config (Z.of_nat i) (mkWorld s' rnd used sl)))
      as (e' & w' & Hrun & Hcls'); [lia|].
    exists e', w'. split; [|exact Hcls'].
    rewrite <- Hrun. cbn [seq map retry_loop op_state rand rand_used slept].
    rewrite Hf, Hcls.
    by destruct (Z.eqb_spec (Z.of_nat i) (max_retries config)); [lia|].
Qed.

End Exhaustion.

Lemma retry_async_raises {F} {ops : FloatOps F} {S A} (func : @Operation S A)
    (config : RetryConfig F) (classes : list PyClass) (w : World F S) :
  (0 <= max_retries config)%Z ->
  always_fails func classes ->
  exists e w',
    retry_async func (Some config) classes w = (Raised e, w') /\
    isinstance e classes = true.
Proof.
  intros Hmr Hfails. unfold retry_async, or_default, py_range.
  replace (Z.to_nat (max_retries config + 1))
    with (Datatypes.S (Z.to_nat (max_retries config))) by lia.
  apply retry_loop_raises; [done|lia].
Qed.




(** With a negative budget the loop body never runs: the operation is
    not invoked and [raise last_exception] raises on [None]. *)
Example retry_negative_budget :
  retry_sync (A:=unit) (counting raises_key_error)
    (Some (mkRetryConfig (-1) 1 60 2 true)) [ClsException]
    (idle_world (0%nat, tt))
  = (RaisedNone, idle_world (0%nat, tt)).
Proof. reflexivity. Qed.

End Retry.

(** * utils/hs_code_db.py

    The table [hs_codes], keyed by [hs_code]; every method runs one
    statement in its own connection.  [now] stands for SQLite's
    [CURRENT_TIMESTAMP] at the time of the call. *)
Module Ledger.

Inductive Status : Type := pending | completed | failed.

Record Row : Type := mkRow {
  status : Status;
  last_scraped_at : option Z;
  export_status : Status;
  import_status : Status;
  export_scraped_at : option Z;
  import_scraped_at : option Z;
  error_count : Z;
  last_error : option string
}.

Abbreviation Table := (gmap string Row).

(** A row as [INSERT ... (hs_code, status) VALUES (?, 'pending')] makes
    it, the other columns taking their defaults. *)
Definition new_row : Row :=
  mkRow pending None pending pending None None 0 None.

(** [INSERT OR IGNORE]: an existing key is left as it is. *)
Definition insert_or_ignore (db : Table) (code : string) : Table :=
  match db !! code with
  | Some _ => db
  | None => <[code := new_row]> db
  end.

Definition bulk_insert (hs_codes : list string) (db : Table) : Table :=
  fold_left insert_or_ignore hs_codes db.

(** [UPDATE hs_codes SET ... WHERE hs_code = ?] changes the row of that
    key and nothing when there is none. *)
Definition mark_completed (hs_code : string) (now : Z) (db : Table) : Table :=
  alter (fun r =>
    mkRow completed (Some now) completed completed
      (export_scraped_at r) (import_scraped_at r)
      (error_count r) (last_error r)) hs_code db.

Definition mark_export_completed (hs_code : string) (now : Z) (db : Table)
  : Table :=
  alter (fun r =>
    mkRow (status r) (last_scraped_at r) completed (import_status r)
      (Some now) (import_scraped_at r)
      (error_count r) (last_error r)) hs_code db.

Definition mark_import_completed (hs_code : string) (now : Z) (db : Table)
  : Table :=
  alter (fun r =>
    mkRow (status r) (last_scraped_at r) (export_status r) completed
      (export_scraped_at r) (Some now)
      (error_count r) (last_error r)) hs_code db.

(** [mark_failed(hs_code, error, trade_mode=None)] *)
Definition mark_failed (hs_code : string) (error : string)
    (trade_mode : option string) (db : Table) : Table :=
  if decide (trade_mode = Some "export") then
    alter (fun r =>
      mkRow (status r) (last_scraped_at r) failed (import_status r)
        (export_scraped_at r) (import_scraped_at r)
        (error_count r + 1) (Some error)) hs_code db
  else if decide (trade_mode = Some "import") then
    alter (fun r =>
      mkRow (status r) (last_scraped_at r) (export_status r) failed
        (export_scraped_at r) (import_scraped_at r)
        (error_count r + 1) (Some error)) hs_code db
  else
    alter (fun r =>
      mkRow failed (last_scraped_at r) (export_status r) (import_status r)
        (export_scraped_at r) (import_scraped_at r)
        (error_count r + 1) (Some error)) hs_code db.

(** The mutating operations of the ledger. *)
Inductive Op : Type :=
| BulkInsert (hs_codes : list string)
| MarkCompleted (hs_code : string) (now : Z)
| MarkExportCompleted (hs_code : string) (now : Z)
| MarkImportCompleted (hs_code : string) (now : Z)
| MarkFailed (hs_code : string) (error : string) (trade_mode : option string).

Definition apply_op (db : Table) (op : Op) : Table :=
  match op with
  | BulkInsert codes => bulk_insert codes db
  | MarkCompleted c now => mark_completed c now db
  | MarkExportCompleted c now => mark_export_completed c now db
  | MarkImportCompleted c now => mark_import_completed c now db
  | MarkFailed c e m => mark_failed c e m db
  end.

(** The ledger reached from the empty table by a history of operations. *)
Definition run (ops : list Op) : Table := fold_left apply_op ops ∅.

Definition Status_eqb (a b : Status) : bool :=
  match a, b with
  | pending, pending | completed, completed | failed, failed => true
  | _, _ => false
  end.

(** An operation that marks one mode failed on a row whose overall
    status is already [completed]. *)
Definition fails_completed_row (db : Table) (op : Op) : bool :=
  match op with
  | MarkFailed c _ (Some m) =>
      (String.eqb m "export" || String.eqb m "import") &&
      match db !! c with
      | Some r => Status_eqb (status r) completed
      | None => false
      end
  | _ => false
  end.

(** No operation of the history marks a mode failed on a completed row. *)
Fixpoint no_late_mode_failure (db : Table) (ops : list Op) : bool :=
  match ops with
  | [] => true
  | op :: rest =>
      negb (fails_completed_row db op) &&
      no_late_mode_failure (apply_op db op) rest
  end.

(** The invariant of the data model. *)
Definition completed_covers_modes (db : Table) : Prop :=
  forall x r, db !! x = Some r -> status r = completed ->
              export_status r = completed /\ import_status r = completed.

(** ** Properties *)

Lemma insert_or_ignore_lookup (db : Table) (code x : string) :
  insert_or_ignore db code !! x =
    match db !! x with
    | Some r => Some r
    | None => if decide (code = x) then Some new_row else None
    end.
Proof.
  unfold insert_or_ignore. destruct (db !! code) as [r|] eqn:Hc.
  - destruct (db !! x) eqn:Hx; [done|]. case_decide; congruence.
  - rewrite lookup_insert. case_decide as Heq.
    + subst. by rewrite Hc.
    + by destruct (db !! x).
Qed.

Lemma insert_or_ignore_covers (db : Table) (code : string) :
  completed_covers_modes db -> completed_covers_modes (insert_or_ignore db code).
Proof.
  intros Hinv x r. rewrite insert_or_ignore_lookup.
  destruct (db !! x) as [r0|] eqn:Hx.
  - intros [= <-]. by apply (Hinv x).
  - case_decide; [|done]. by intros [= <-].
Qed.

Lemma bulk_insert_covers (codes : list string) (db : Table) :
  completed_covers_modes db -> completed_covers_modes (bulk_insert codes db).
Proof.
  unfold bulk_insert. revert db.
  induction codes as [|c codes IH]; intros db Hinv; simpl; [done|].
  apply IH. by apply insert_or_ignore_covers.
Qed.

Lemma apply_op_covers (db : Table) (op : Op) :
  fails_completed_row db op = false ->
  completed_covers_modes db -> completed_covers_modes (apply_op db op).
Proof.
  intros Hop Hinv. destruct op as [codes|c now|c now|c now|c e m]; simpl.
  - by apply bulk_insert_covers.
  - intros x r. unfold mark_completed. rewrite lookup_alter.
    case_decide; [|by apply Hinv].
    destruct (db !! c); [|done]. by intros [= <-].
  - intros x r. unfold mark_export_completed. rewrite lookup_alter.
    case_decide; [subst x|by apply Hinv].
    destruct (db !! c) as [r0|] eqn:Hc; [|done]. intros [= <-]; simpl.
    intros Hst. by destruct (Hinv c r0 Hc Hst).
  - intros x r. unfold mark_import_completed. rewrite lookup_alter.
    case_decide; [subst x|by apply Hinv].
    destruct (db !! c) as [r0|] eqn:Hc; [|done]. intros [= <-]; simpl.
    intros Hst. by destruct (Hinv c r0 Hc Hst).
  - intros x r. unfold mark_failed. simpl in Hop.
    repeat case_decide; subst; rewrite lookup_alter;
      (case_decide; [subst x|by apply Hinv]);
      (destruct (db !! c) as [r0|] eqn:Hc; [|done]);
      intros [= <-]; simpl; intros Hst; try done;
      simpl in Hop; by destruct (status r0).
Qed.

Lemma history_covers (ops : list Op) (db : Table) :
  no_late_mode_failure db ops = true ->
  completed_covers_modes db ->
  completed_covers_modes (fold_left apply_op ops db).
Proof.
  revert db. induction ops as [|op ops IH]; intros db Hok Hinv; simpl; [done|].
  simpl in Hok. apply andb_true_iff in Hok as [Hop Hrest].
  apply IH; [done|]. apply apply_op_covers; [|done].
  by apply negb_true_iff.
Qed.

(** C2 (as amended): in every reachable ledger, marking export completed
    for a code sets its export status and changes neither its import
    status nor its overall status; [mark_completed] sets the overall
    status and both mode statuses to completed; and an overall status
    completed implies both mode statuses completed as long as no mode
    was marked failed on an already completed row. *)
Theorem mode_completion_independent (ops : list Op) (x : string) (now : Z) :
  (forall r, run ops !! x = Some r ->
     exists r', mark_export_completed x now (run ops) !! x = Some r' /\
       export_status r' = completed /\
       import_status r' = import_status r /\
       status r' = status r) /\
  (forall r, run ops !! x = Some r ->
     exists r', mark_completed x now (run ops) !! x = Some r' /\
       status r' = completed /\
       export_status r' = completed /\
       import_status r' = completed) /\
  (no_late_mode_failure ∅ ops = true ->
   forall r, run ops !! x = Some r -> status r = completed ->
     export_status r = completed /\ import_status r = completed).
Proof.
  split; [|split].
  - intros r Hr. eexists.
    split; [unfold mark_export_completed; by rewrite lookup_alter_eq, Hr|done].
  - intros r Hr. eexists.
    split; [unfold mark_completed; by rewrite lookup_alter_eq, Hr|done].
  - intros Hok r Hr Hst.
    apply (history_covers ops ∅ Hok) with (x := x); [|done..].
    intros ? ?. by rewrite lookup_empty.
Qed.

Definition sample_history : list Op :=
  [BulkInsert ["61091000"]; MarkFailed "61091000" "timeout" (Some "import");
   MarkExportCompleted "61091000" 10; MarkImportCompleted "61091000" 11;
   MarkCompleted "61091000" 12].

Lemma mode_completion_independent_witness :
  exists r, run sample_history !! "61091000" = Some r /\
    export_status r = completed /\ import_status r = completed.
Proof.
  destruct (mode_completion_independent sample_history "61091000" 13)
    as (_ & _ & Hinv).
  eexists. split; [vm_compute; reflexivity|].
  eapply Hinv; [vm_compute; reflexivity|vm_compute; reflexivity|reflexivity].
Defined.

(** C2 as stated fails in both directions: after both modes are marked
    completed one by one the overall status is still pending, and a mode
    marked failed after [mark_completed] leaves the overall status
    completed. *)
Lemma overall_status_not_equivalent :
  (exists r,
     run [BulkInsert ["61091000"]; MarkExportCompleted "61091000" 10;
          MarkImportCompleted "61091000" 11] !! "61091000" = Some r /\
     export_status r = completed /\ import_status r = completed /\
     status r = pending) /\
  (exists r,
     run [BulkInsert ["61091000"]; MarkCompleted "61091000" 10;
          MarkFailed "61091000" "disk full" (Some "export")] !! "61091000"
       = Some r /\
     status r = completed /\ export_status r = failed).
Proof.
  split; eexists; (split; [vm_compute; reflexivity|]); done.
Qed.

End Ledger.

(** * Python values

    The payloads are JSON-shaped Python objects.  A [dict] keeps its
    insertion order, so it is an association list with distinct keys.
    Strings are taken over the ASCII alphabet. *)
Module Py.

#[warnings="-register-all"]
Inductive Json : Type :=
| JNull
| JBool (b : bool)
| JInt (n : Z)
| JFloat (q : Q)
| JStr (s : string)
| JList (items : list Json)
| JDict (entries : list (string * Json)).

Definition Dict : Type := list (string * Json).

(** Fallible code: [inl] is the exception raised. *)
Definition Result (A : Type) : Type := PyError + A.

Definition bind {A B} (m : Result A) (k : A -> Result B) : Result B :=
  match m with
  | inl e => inl e
  | inr a => k a
  end.

Notation "'let?' x ':=' m 'in' k" := (bind m (fun x => k))
  (at level 10, x name, m at level 100, k at level 200).

(** [map] over a list with a function that may raise, left to right. *)
Fixpoint mapM {A B} (f : A -> Result B) (l : list A) : Result (list B) :=
  match l with
  | [] => inr []
  | x :: xs => let? y := f x in let? ys := mapM f xs in inr (y :: ys)
  end.

(** ** Dictionaries *)

Fixpoint dict_lookup (d : Dict) (key : string) : option Json :=
  match d with
  | [] => None
  | (k, v) :: rest => if String.eqb k key then Some v else dict_lookup rest key
  end.

(** [d[key] = value]: an existing key keeps its place. *)
Fixpoint dict_set (d : Dict) (key : string) (value : Json) : Dict :=
  match d with
  | [] => [(key, value)]
  | (k, v) :: rest =>
      if String.eqb k key then (k, value) :: rest
      else (k, v) :: dict_set rest key value
  end.

(** A dict display [{k1: v1, ..., **d, ...}] adds its entries in order. *)
Definition dict_update (d : Dict) (entries : Dict) : Dict :=
  fold_left (fun acc kv => dict_set acc (fst kv) (snd kv)) entries d.

(** [x.get(key)] and [x.get(key, default)] *)
Definition py_get (x : Json) (key : string) (default : Json) : Result Json :=
  match x with
  | JDict d =>
      match dict_lookup d key with
      | Some v => inr v
      | None => inr default
      end
  | _ => inl (AttributeError "object has no attribute 'get'")
  end.

(** [x[key]] for a string key *)
Definition py_getitem (x : Json) (key : string) : Result Json :=
  match x with
  | JDict d =>
      match dict_lookup d key with
      | Some v => inr v
      | None => inl (KeyError key)
      end
  | _ => inl (TypeError "indices must be integers or object is not subscriptable")
  end.

(** [x.items()] *)
Definition py_items (x : Json) : Result Dict :=
  match x with
  | JDict d => inr d
  | _ => inl (AttributeError "object has no attribute 'items'")
  end.

Fixpoint is_prefix (p s : string) : bool :=
  match p, s with
  | EmptyString, _ => true
  | String a p', String b s' => Ascii.eqb a b && is_prefix p' s'
  | String _ _, EmptyString => false
  end.

Fixpoint is_substring (p s : string) : bool :=
  is_prefix p s ||
  match s with
  | EmptyString => false
  | String _ s' => is_substring p s'
  end.

(** [key in x] for a string key *)
Definition py_in (key : string) (x : Json) : Result bool :=
  match x with
  | JDict d => inr (bool_decide (is_Some (dict_lookup d key)))
  | JStr s => inr (is_substring key s)
  | JList l =>
      inr (existsb (fun v => match v with
                             | JStr s => String.eqb s key
                             | _ => false
                             end) l)
  | _ => inl (TypeError "argument is not iterable")
  end.

(** Truth value of an object, as [if not x] tests it. *)
Definition py_truthy (x : Json) : bool :=
  match x with
  | JNull => false
  | JBool b => b
  | JInt n => negb (n =? 0)%Z
  | JFloat q => negb (Qeq_bool q 0)
  | JStr s => negb (String.eqb s "")
  | JList l => match l with [] => false | _ => true end
  | JDict d => match d with [] => false | _ => true end
  end.

(** [for r in x]: the objects an iteration yields. *)
Definition py_iter (x : Json) : Result (list Json) :=
  match x with
  | JList l => inr l
  | JDict d => inr (map (fun kv => JStr (fst kv)) d)
  | JStr s => inr (map (fun c => JStr (String c EmptyString)) (String.list_ascii_of_string s))
  | _ => inl (TypeError "object is not iterable")
  end.

(** ** Strings *)

(** The ASCII characters [str.strip()] removes. *)
Definition is_space (c : ascii) : bool :=
  let n := nat_of_ascii c in
  (n =? 32)%nat || ((9 <=? n)%nat && (n <=? 13)%nat) ||
  ((28 <=? n)%nat && (n <=? 31)%nat).

Fixpoint lstrip (s : string) : string :=
  match s with
  | EmptyString => EmptyString
  | String c s' => if is_space c then lstrip s' else s
  end.

(** Drops the trailing whitespace. *)
Fixpoint rstrip (s : string) : string :=
  match s with
  | EmptyString => EmptyString
  | String c s' =>
      match rstrip s' with
      | EmptyString => if is_space c then EmptyString else String c EmptyString
      | r => String c r
      end
  end.

Definition strip (s : string) : string := rstrip (lstrip s).

(** [s.replace(",", "")] *)
Fixpoint remove_commas (s : string) : string :=
  match s with
  | EmptyString => EmptyString
  | String c s' =>
      if Ascii.eqb c "," then remove_commas s' else String c (remove_commas s')
  end.

Definition is_digit (c : ascii) : bool :=
  let n := nat_of_ascii c in (48 <=? n)%nat && (n <=? 57)%nat.

(** Splits off the longest prefix of digits and counts it. *)
Fixpoint span_digits (s : string) : nat * string :=
  match s with
  | EmptyString => (O, EmptyString)
  | String c s' =>
      if is_digit c then
        let '(n, rest) := span_digits s' in (S n, rest)
      else (O, s)
  end.

(** Where [$] matches: at the end, or before a final newline. *)
Definition at_end (s : string) : bool :=
  match s with
  | EmptyString => true
  | String c EmptyString => Ascii.eqb c "010"
  | _ => false
  end.

(** [re.match(r"^-?\d+(\.\d+)?$", s)] is not [None]. *)
Definition matches_number (s : string) : bool :=
  let s1 := match s with
            | String c s' => if Ascii.eqb c "-" then s' else s
            | EmptyString => s
            end in
  let '(n1, r1) := span_digits s1 in
  (0 <? n1)%nat &&
  (at_end r1 ||
   match r1 with
   | String c r1' =>
       Ascii.eqb c "." &&
       (let '(n2, r2) := span_digits r1' in (0 <? n2)%nat && at_end r2)
   | EmptyString => false
   end).

(** [s[:n]] on a string *)
Fixpoint str_take (n : nat) (s : string) : string :=
  match n, s with
  | S n', String c s' => String c (str_take n' s')
  | _, _ => EmptyString
  end.

(** [x[:n]] for [n >= 0] *)
Definition py_prefix (x : Json) (n : nat) : Result Json :=
  match x with
  | JStr s => inr (JStr (str_take n s))
  | JList l => inr (JList (take n l))
  | _ => inl (TypeError "object is not subscriptable")
  end.

End Py.

(** * storage/processor.py *)
Module Processor.
Import Py.

Definition PIPELINE_VERSION : string := "1.0.0".
Definition SCHEMA_VERSION : string := "v1".

(** [parse_hs(hs_code)] *)
Definition parse_hs (hs_code : Json) : Result Json :=
  let? sub_heading := py_prefix hs_code 6 in
  let? heading := py_prefix hs_code 4 in
  let? chapter := py_prefix hs_code 2 in
  inr (JDict [("hs8", hs_code); ("sub_heading", sub_heading);
              ("heading", heading); ("chapter", chapter)]).

(** The inner [clean(x)] of [clean_summary]. *)
Definition clean (x : Json) : Result Json :=
  match x with
  | JNull => inr JNull
  | JStr s => inr (JStr (strip (remove_commas s)))
  | _ => inl (AttributeError "object has no attribute 'replace'")
  end.

(** One of the three blocks of the cleaned summary:
    [clean(summary[name].get(...))] for the three figures in turn. *)
Definition clean_figures (summary : Json) (name : string) : Result Json :=
  let? block := py_getitem summary name in
  let? v := py_get block "2023_24" JNull in
  let? prev := clean v in
  let? block := py_getitem summary name in
  let? v := py_get block "2024_25" JNull in
  let? curr := clean v in
  let? block := py_getitem summary name in
  let? v := py_get block "growth_percent" JNull in
  let? growth := clean v in
  inr (JDict [("prev", prev); ("curr", curr); ("growth", growth)]).

(** [clean_summary(summary)] *)
Definition clean_summary (summary : Json) : Result Json :=
  if negb (py_truthy summary) then inr JNull
  else
    let? selected := clean_figures summary "total_exports_selected_countries" in
    let? india := clean_figures summary "india_total_exports" in
    let? share := clean_figures summary "share_of_india_exports_percent" in
    inr (JDict [("total_exports_selected_countries", selected);
                ("india_total_exports", india);
                ("share_of_india_exports_percent", share)]).

(** The body of [for k, v in r.items()]: the cleaned value of one cell. *)
Definition clean_value (v : Json) : Json :=
  match v with
  | JStr s =>
      let v := strip s in
      if matches_number (remove_commas v) then JStr (remove_commas v)
      else JStr v
  | _ => v
  end.

(** One row of [clean_rows]: [obj[k] = v] for every item of [r]. *)
Definition clean_row (r : Json) : Result Json :=
  let? items := py_items r in
  inr (JDict (fold_left
                (fun obj kv => dict_set obj (fst kv) (clean_value (snd kv)))
                items [])).

(** [clean_rows(rows)] *)
Definition clean_rows (rows : Json) : Result Json :=
  if negb (py_truthy rows) then inr (JList [])
  else
    let? rs := py_iter rows in
    let? cleaned := mapM clean_row rs in
    inr (JList cleaned).

(** The value stored under one year of [processed["years"]]. *)
Definition process_year (block : Json) : Result Json :=
  let? product_label := py_get block "product_label" JNull in
  let? raw_summary := py_get block "summary" JNull in
  let? summary := clean_summary raw_summary in
  let? raw_rows := py_get block "partner_countries" JNull in
  let? partner_countries := clean_rows raw_rows in
  let? total_pages := py_get block "total_pages" JNull in
  inr (JDict [("product_label", product_label);
              ("summary", summary);
              ("partner_countries", partner_countries);
              ("total_pages", total_pages)]).

(** The loop [for year, block in raw_payload["data_by_year"].items()],
    which fills [processed["years"]]. *)
Fixpoint process_years (items : Dict) (years : Dict) : Result Dict :=
  match items with
  | [] => inr years
  | (year, block) :: rest =>
      let? entry := process_year block in
      process_years rest (dict_set years year entry)
  end.

Fixpoint join_comma (l : list string) : string :=
  match l with
  | [] => ""
  | [x] => x
  | x :: rest => x ++ ", " ++ join_comma rest
  end.

(** [str(d.keys())] *)
Definition dict_keys_str (d : Dict) : string :=
  "dict_keys([" ++ join_comma (map (fun kv => repr_str (fst kv)) d) ++ "])".

(** The [ValueError] of the schema validation: its message formats
    [raw_payload.keys()], which only a dict has. *)
Definition invalid_payload (raw_payload : Json) (missing : string)
  : PyError :=
  match raw_payload with
  | JDict d =>
      ValueError ("Invalid raw payload: missing " ++ missing ++ " -> "
                  ++ dict_keys_str d)
  | _ => AttributeError "object has no attribute 'keys'"
  end.

Definition SOURCE : Json :=
  JDict [("site", JStr "https://tradestat.commerce.gov.in");
         ("dataset", JStr "Commodity-wise all Countries");
         ("country", JStr "India")].

(** [Processor.process_raw_payload(raw_payload)]; [record_id] is the
    fresh [str(uuid.uuid4())] and [processed_at] the value of
    [now_ist()] at the call. *)
Definition process_raw_payload (record_id processed_at : string)
    (raw_payload : Json) : Result Json :=
  let? has_metadata := py_in "metadata" raw_payload in
  let? valid :=
    (if has_metadata then
       let? metadata := py_getitem raw_payload "metadata" in
       py_in "hs_code" metadata
     else inr false) in
  if negb valid then inl (invalid_payload raw_payload "hs_code")
  else
    let? has_data := py_in "data_by_year" raw_payload in
    if negb has_data then inl (invalid_payload raw_payload "data_by_year")
    else
      let? metadata := py_getitem raw_payload "metadata" in
      let? hs_code := py_getitem metadata "hs_code" in
      let? metadata := py_getitem raw_payload "metadata" in
      let? hs := parse_hs hs_code in
      let? data_by_year := py_getitem raw_payload "data_by_year" in
      let? items := py_items data_by_year in
      let? years := process_years items [] in
      inr (JDict [("record_id", JStr record_id);
                  ("schema_version", JStr SCHEMA_VERSION);
                  ("pipeline_version", JStr PIPELINE_VERSION);
                  ("processed_at_ist", JStr processed_at);
                  ("metadata", metadata);
                  ("hs", hs);
                  ("trade_type", JStr "EXPORT");
                  ("frequency", JStr "ANNUAL");
                  ("source", SOURCE);
                  ("years", JDict years)]).

(** ** Properties *)

(** Inverts a successful monadic sequence, one step at a time. *)
Ltac invert_bind H :=
  repeat match type of H with
  | bind ?m _ = inr _ =>
      let E := fresh "E" in
      destruct m eqn:E; simpl in H; [discriminate H|]
  | (if ?b then _ else _) = inr _ =>
      let E := fresh "E" in
      destruct b eqn:E; simpl in H; try discriminate H
  end.

Lemma process_raw_payload_shape (record_id processed_at : string)
    (raw_payload processed : Json) :
  process_raw_payload record_id processed_at raw_payload = inr processed ->
  exists metadata hs years,
    processed = JDict [("record_id", JStr record_id);
                       ("schema_version", JStr SCHEMA_VERSION);
                       ("pipeline_version", JStr PIPELINE_VERSION);
                       ("processed_at_ist", JStr processed_at);
                       ("metadata", metadata);
                       ("hs", hs);
                       ("trade_type", JStr "EXPORT");
                       ("frequency", JStr "ANNUAL");
                       ("source", SOURCE);
                       ("years", JDict years)] /\
    py_getitem raw_payload "metadata" = inr metadata.
Proof.
  unfold process_raw_payload. intros H. invert_bind H.
  injection H as <-. eauto.
Qed.

(** C10: whatever the trade mode in the metadata of an accepted raw
    payload, the processed record has trade_type "EXPORT" and frequency
    "ANNUAL". *)
Theorem processed_stamped_export (record_id processed_at : string)
    (raw_payload processed : Json) :
  process_raw_payload record_id processed_at raw_payload = inr processed ->
  py_getitem processed "trade_type" = inr (JStr "EXPORT") /\
  py_getitem processed "frequency" = inr (JStr "ANNUAL").
Proof.
  intros H. apply process_raw_payload_shape in H as (m & hs & ys & -> & _).
  split; reflexivity.
Qed.

(** A minimal payload scraped in import mode. *)
Definition import_payload : Json :=
  JDict [("status", JStr "SUCCESS");
         ("metadata", JDict [("hs_code", JStr "61091000");
                             ("trade_mode", JStr "import")]);
         ("data_by_year", JDict [])].

Lemma processed_stamped_export_witness :
  exists processed,
    process_raw_payload "id-1" "2025-01-01T00:00:00+05:30" import_payload
      = inr processed /\
    (let? m := py_getitem processed "metadata" in py_getitem m "trade_mode")
      = inr (JStr "import") /\
    py_getitem processed "trade_type" = inr (JStr "EXPORT").
Proof.
  pose proof (processed_stamped_export "id-1" "2025-01-01T00:00:00+05:30"
                import_payload _ eq_refl) as [Htrade _].
  eexists. split; [reflexivity|]. split; [reflexivity|exact Htrade].
Defined.

End Processor.

(** * storage/normalizer.py *)
Module Normalizer.
Import Py.

(** [summary.get(name, {}).get(field)] *)
Definition summary_field (summary : Json) (name field : string)
  : Result Json :=
  let? block := py_get summary name (JDict []) in
  py_get block field JNull.

(** The dict display that builds [flat] for one partner row. *)
Definition flatten_row (metadata hs : Json) (year : string)
    (summary row : Json) : Result Json :=
  let? pipeline_version := py_get metadata "pipeline_version" JNull in
  let? scrape_date_ist := py_get metadata "scrape_date_ist" JNull in
  let? scrape_time_ist := py_get metadata "scrape_time_ist" JNull in
  let? scrape_duration_sec := py_get metadata "scrape_duration_sec" JNull in
  let? site_url := py_get metadata "site_url" JNull in
  let? trade_type := py_get metadata "trade_type" JNull in
  let? data_frequency := py_get metadata "data_frequency" JNull in
  let? currency := py_get metadata "currency" JNull in
  let? hs_code := py_get hs "hs_code" JNull in
  let? chapter := py_get hs "chapter" JNull in
  let? heading := py_get hs "heading" JNull in
  let? sub_heading := py_get hs "sub_heading" JNull in
  let? hs_8 := py_get hs "hs_8" JNull in
  let? row_items :=
    (match row with
     | JDict d => inr d
     | _ => inl (TypeError "argument after ** must be a mapping")
     end) in
  let? selected_prev := summary_field summary "total_exports_selected_countries" "prev" in
  let? selected_curr := summary_field summary "total_exports_selected_countries" "curr" in
  let? selected_growth := summary_field summary "total_exports_selected_countries" "growth" in
  let? india_prev := summary_field summary "india_total_exports" "prev" in
  let? india_curr := summary_field summary "india_total_exports" "curr" in
  let? india_growth := summary_field summary "india_total_exports" "growth" in
  let? share_prev := summary_field summary "share_of_india_exports_percent" "prev" in
  let? share_curr := summary_field summary "share_of_india_exports_percent" "curr" in
  inr (JDict
    (dict_update
      (dict_update
        (dict_update []
          [("pipeline_version", pipeline_version);
           ("scrape_date_ist", scrape_date_ist);
           ("scrape_time_ist", scrape_time_ist);
           ("scrape_duration_sec", scrape_duration_sec);
           ("site_url", site_url);
           ("trade_type", trade_type);
           ("data_frequency", data_frequency);
           ("currency", currency);
           ("hs_code", hs_code);
           ("chapter", chapter);
           ("heading", heading);
           ("sub_heading", sub_heading);
           ("hs_8", hs_8);
           ("year", JStr year)])
        row_items)
      [("summary_total_selected_prev", selected_prev);
       ("summary_total_selected_curr", selected_curr);
       ("summary_total_selected_growth", selected_growth);
       ("summary_india_prev", india_prev);
       ("summary_india_curr", india_curr);
       ("summary_india_growth", india_growth);
       ("summary_share_prev", share_prev);
       ("summary_share_curr", share_curr)])).

(** The rows of one year: the inner loop over [partner_rows]. *)
Definition normalize_year (metadata hs : Json) (year : string)
    (year_block : Json) : Result (list Json) :=
  let? partner_rows := py_get year_block "partner_countries" (JList []) in
  let? summary := py_get year_block "summary" (JDict []) in
  let? rows := py_iter partner_rows in
  mapM (flatten_row metadata hs year summary) rows.

(** The outer loop over [data_by_year.items()], appending to
    [normalized_rows]. *)
Fixpoint normalize_years (metadata hs : Json) (items : Dict)
    (normalized_rows : list Json) : Result (list Json) :=
  match items with
  | [] => inr normalized_rows
  | (year, year_block) :: rest =>
      let? rows := normalize_year metadata hs year year_block in
      normalize_years metadata hs rest (normalized_rows ++ rows)
  end.

(** [Normalizer.normalize_processed_payload(processed)] *)
Definition normalize_processed_payload (processed : Json)
  : Result (list Json) :=
  let? metadata := py_get processed "metadata" (JDict []) in
  let? hs := py_get processed "hs" (JDict []) in
  let? data_by_year := py_get processed "data_by_year" (JDict []) in
  let? items := py_items data_by_year in
  normalize_years metadata hs items [].

(** ** The scenario of code 61091000 in export mode *)

(** A partner row as [ScraperController.map_rows] builds it for the
    year [curr], with the value "12,345.6" in both value columns. *)
Definition partner_row (sno country prev curr : string) : Json :=
  JDict [("S.No", JStr sno); ("Country", JStr country);
         (prev, JStr "12,345.6"); (curr, JStr "12,345.6");
         ("%Growth", JStr "0.00");
         ("Qty_prev", JNull); ("Qty_curr", JNull); ("Qty_Growth", JNull)].

Definition cleaned_row (sno country prev curr : string) : Json :=
  JDict [("S.No", JStr sno); ("Country", JStr country);
         (prev, JStr "12345.6"); (curr, JStr "12345.6");
         ("%Growth", JStr "0.00");
         ("Qty_prev", JNull); ("Qty_curr", JNull); ("Qty_Growth", JNull)].

(** A summary as [SummaryParser.parse] returns it. *)
Definition raw_summary : Json :=
  let figures growth :=
    JDict [("2023_2024", JStr "37,036.8"); ("2024_2025", JStr "37,036.8");
           ("growth_percent", growth)] in
  JDict [("total_exports_selected_countries", figures (JStr " 0.00"));
         ("india_total_exports", figures (JStr "1,234.50 "));
         ("share_of_india_exports_percent", figures JNull)].

Definition cleaned_summary : Json :=
  let figures growth :=
    JDict [("prev", JNull); ("curr", JNull); ("growth", growth)] in
  JDict [("total_exports_selected_countries", figures (JStr "0.00"));
         ("india_total_exports", figures (JStr "1234.50"));
         ("share_of_india_exports_percent", figures JNull)].

Definition year_block (row : string -> string -> Json) : Json :=
  JDict [("product_label", JStr "T-SHIRTS OF COTTON");
         ("partner_countries",
          JList [row "1" "U S A"; row "2" "U K"; row "3" "GERMANY"]);
         ("summary", raw_summary);
         ("total_pages", JInt 1)].

Definition scenario_metadata : Json :=
  JDict [("hs_code", JStr "61091000");
         ("trade_mode", JStr "export");
         ("report_type", JStr "Commodity wise all Countries");
         ("data_frequency", JStr "Annual");
         ("currency", JStr "USD Million");
         ("scraped_at_ist", JStr "2025-01-15 10:30:00 IST");
         ("years_available", JList [JStr "2023-2024"; JStr "2024-2025"]);
         ("number_of_years", JInt 2);
         ("hs_hierarchy",
          JDict [("chapter", JStr "61"); ("heading", JStr "6109");
                 ("sub_heading", JStr "610910"); ("hs_8", JStr "61091000")])].

Definition scenario_payload : Json :=
  JDict [("status", JStr "SUCCESS");
         ("metadata", scenario_metadata);
         ("data_by_year",
          JDict [("2023-2024",
                  year_block (fun n c => partner_row n c "2022-2023" "2023-2024"));
                 ("2024-2025",
                  year_block (fun n c => partner_row n c "2023-2024" "2024-2025"))])].

Definition processed_year_block (row : string -> string -> Json) : Json :=
  JDict [("product_label", JStr "T-SHIRTS OF COTTON");
         ("summary", cleaned_summary);
         ("partner_countries",
          JList [row "1" "U S A"; row "2" "U K"; row "3" "GERMANY"]);
         ("total_pages", JInt 1)].

(** What the Process stage stores under ["years"] for the scenario. *)
Definition scenario_years : Json :=
  JDict [("2023-2024",
          processed_year_block
            (fun n c => cleaned_row n c "2022-2023" "2023-2024"));
         ("2024-2025",
          processed_year_block
            (fun n c => cleaned_row n c "2023-2024" "2024-2025"))].

(** ** Properties *)

(** The Normalize stage reads the per-year data under ["data_by_year"],
    a key that a record made by the Process stage does not have. *)
Lemma normalize_of_processed (record_id processed_at : string)
    (raw_payload processed : Json) :
  Processor.process_raw_payload record_id processed_at raw_payload
    = inr processed ->
  normalize_processed_payload processed = inr [].
Proof.
  intros H.
  apply Processor.process_raw_payload_shape in H as (m & hs & ys & -> & _).
  reflexivity.
Qed.

(** C3 on the code: for the scenario payload the Process stage yields
    the cleaned values "12345.6" and the hierarchy of the code, but
    Normalize emits no row for the resulting record instead of six. *)
Theorem scenario_normalize_emits_no_rows (record_id processed_at : string) :
  exists processed,
    Processor.process_raw_payload record_id processed_at scenario_payload
      = inr processed /\
    py_getitem processed "years" = inr scenario_years /\
    py_getitem processed "hs"
      = inr (JDict [("hs8", JStr "61091000"); ("sub_heading", JStr "610910");
                    ("heading", JStr "6109"); ("chapter", JStr "61")]) /\
    normalize_processed_payload processed = inr [].
Proof.
  eexists. split; [reflexivity|].
  split; [vm_compute; reflexivity|].
  split; vm_compute; reflexivity.
Qed.

(** Fed with a record that keeps its years under ["data_by_year"], as
    the raw payload does, the same code emits one row per year and
    partner. *)
Example normalize_raw_layout :
  exists rows,
    normalize_processed_payload scenario_payload = inr rows /\
    length rows = 6%nat.
Proof. eexists. split; [vm_compute; reflexivity|reflexivity]. Qed.

End Normalizer.

(** * storage/json_writer.py and pipeline/worker.py *)
Module Worker.
Import Py.

(** A path as [pathlib] builds it here: the directories, then the file
    name split into stem and suffix.  Codes and dates are taken to hold
    no path separator. *)
Record Path : Type := mkPath {
  parents : list string;
  stem : string;
  suffix : string
}.

Definition RAW_DATA_DIR : list string := ["data"; "raw"].
Definition PROCESSED_DATA_DIR : list string := ["data"; "processed"].
Definition NORMALIZED_DATA_DIR : list string := ["data"; "normalized"].

(** The first field of [s.split()], up to the next whitespace. *)
Fixpoint first_field (s : string) : string :=
  match s with
  | EmptyString => EmptyString
  | String c s' => if is_space c then EmptyString else String c (first_field s')
  end.

(** [s.split()[0]] *)
Definition split_first (x : Json) : Result string :=
  match x with
  | JStr s =>
      match lstrip s with
      | EmptyString => inl (IndexError "list index out of range")
      | t => inr (first_field t)
      end
  | _ => inl (AttributeError "object has no attribute 'split'")
  end.

(** The state a chunk is processed in. *)
Record State {S FS : Type} : Type := mkState {
  scraper : Retry.World Q S;
  files : FS;
  db : Ledger.Table;
  ticks : nat
}.
Arguments State S FS : clear implicits.
Arguments mkState {S FS} scraper files db ticks.

Section Chunk.
Context {S FS : Type}.

(** The Scrape Task: [ScraperController(trade_mode=mode).run(hs)]. *)
Variable run : string -> string -> @Retry.Operation S Json.

(** [open(path, "w")] with [json.dump], after [mkdir]; and [open(path)]
    with [json.load]. *)
Variable write_json : Path -> Json -> FS -> Result FS.
Variable read_json : Path -> FS -> Result Json.

(** [uuid.uuid4()], [now_ist()] and [CURRENT_TIMESTAMP] at each tick. *)
Variable uuid4 : nat -> string.
Variable now_ist : nat -> string.
Variable current_timestamp : nat -> Z.

Local Abbreviation State := (State S FS).

Definition with_db (st : State) (d : Ledger.Table) : State :=
  mkState (scraper st) (files st) d (Datatypes.S (ticks st)).

Definition with_files (st : State) (fs : FS) : State :=
  mkState (scraper st) fs (db st) (ticks st).

(** [JSONWriter.write(base_dir, trade_mode, hs_code, payload)] *)
Definition JSONWriter_write (base_dir : list string)
    (trade_mode hs_code : string) (payload : Json) (fs : FS)
  : Result (Path * FS) :=
  let? metadata := py_getitem payload "metadata" in
  let? scraped_at := py_getitem metadata "scraped_at_ist" in
  let? date := split_first scraped_at in
  let path := mkPath (base_dir ++ [trade_mode; date]) ("HS_" ++ hs_code) ".json" in
  let? fs' := write_json path payload fs in
  inr (path, fs').

(** [Normalizer.write_normalized_file(processed_file_path, normalized_root)] *)
Definition write_normalized_file (processed_file_path : Path)
    (normalized_root : list string) (fs : FS) : Result (Path * FS) :=
  let? processed := read_json processed_file_path fs in
  let? normalized_rows := Normalizer.normalize_processed_payload processed in
  let date_folder := List.last (parents processed_file_path) "" in
  let hs_code := stem processed_file_path in
  let out_file :=
    mkPath (normalized_root ++ [date_folder]) (hs_code ++ "_normalized") ".json" in
  let? fs' := write_json out_file (JList normalized_rows) fs in
  inr (out_file, fs').

(** [_scrape_mode_with_retry(hs, mode)]: [inl] is an exception that
    [except Exception] does not catch. *)
Definition scrape_mode_with_retry (hs mode : string) (w : Retry.World Q S)
  : Result (string * option Json) * Retry.World Q S :=
  let '(outcome, w') :=
    Retry.retry_async (run mode hs) (Some Retry.SCRAPER_RETRY_CONFIG)
      [ClsException] w in
  match outcome with
  | Retry.Returned result =>
      if py_truthy result then
        match py_get result "status" JNull with
        | inr (JStr "FAILED") => (inr (mode, None), w')
        | inr _ => (inr (mode, Some result), w')
        | inl _ => (inr (mode, None), w')
        end
      else (inr (mode, None), w')
  | Retry.Raised e =>
      if isinstance e [ClsException] then (inr (mode, None), w')
      else (inl e, w')
  | Retry.RaisedNone => (inr (mode, None), w')
  end.

(** The body of the inner [try] up to the ledger update: save raw,
    process, save processed, normalize. *)
Definition transform (trade_mode hs : string) (result : Json) (st : State)
  : Result unit * State :=
  match JSONWriter_write RAW_DATA_DIR trade_mode hs result (files st) with
  | inl e => (inl e, st)
  | inr (raw_file, fs1) =>
      let st1 := mkState (scraper st) fs1 (db st) (Datatypes.S (ticks st)) in
      match Processor.process_raw_payload (uuid4 (ticks st))
              (now_ist (ticks st)) result with
      | inl e => (inl e, st1)
      | inr processed =>
          match JSONWriter_write PROCESSED_DATA_DIR trade_mode hs processed fs1 with
          | inl e => (inl e, st1)
          | inr (processed_file, fs2) =>
              match write_normalized_file processed_file NORMALIZED_DATA_DIR fs2 with
              | inl e => (inl e, with_files st1 fs2)
              | inr (_, fs3) => (inr tt, with_files st1 fs3)
              end
          end
      end
  end.

(** One round of [for trade_mode in ["export", "import"]]. *)
Definition process_mode (hs trade_mode : string) (result : option Json)
    (st : State) : Result unit * State :=
  match result with
  | None => (inr tt, st)
  | Some result =>
      match transform trade_mode hs result st with
      | (inr _, st') =>
          let now := current_timestamp (ticks st') in
          if String.eqb trade_mode "export" then
            (inr tt, with_db st' (Ledger.mark_export_completed hs now (db st')))
          else
            (inr tt, with_db st' (Ledger.mark_import_completed hs now (db st')))
      | (inl mode_err, st') =>
          if isinstance mode_err [ClsException] then
            (inr tt, with_db st'
                       (Ledger.mark_failed hs (error_message mode_err)
                          (Some trade_mode) (db st')))
          else (inl mode_err, st')
      end
  end.

(** The body of [for hs in chunk]; the two scrapes gathered are run one
    after the other. *)
Definition process_item (hs : string) (st : State) : Result unit * State :=
  let '(r_export, w1) := scrape_mode_with_retry hs "export" (scraper st) in
  let '(r_import, w2) := scrape_mode_with_retry hs "import" w1 in
  let st0 := mkState w2 (files st) (db st) (ticks st) in
  match r_export, r_import with
  | inl e, _ => (inl e, st0)
  | _, inl e => (inl e, st0)
  | inr (_, export_result), inr (_, import_result) =>
      match export_result, import_result with
      | None, None =>
          (inr tt,
           with_db st0
             (Ledger.mark_failed hs
                "Failed to scrape both export and import after retries"
                None (db st0)))
      | _, _ =>
          match process_mode hs "export" export_result st0 with
          | (inl e, st1) => (inl e, st1)
          | (inr _, st1) =>
              match process_mode hs "import" import_result st1 with
              | (inl e, st2) => (inl e, st2)
              | (inr _, st2) =>
                  match export_result, import_result with
                  | Some _, Some _ =>
                      (inr tt,
                       with_db st2
                         (Ledger.mark_completed hs
                            (current_timestamp (ticks st2)) (db st2)))
                  | _, _ => (inr tt, st2)
                  end
              end
          end
      end
  end.

(** [process_chunk(chunk, db)] *)
Fixpoint process_chunk (chunk : list string) (st : State)
  : Result unit * State :=
  match chunk with
  | [] => (inr tt, st)
  | hs :: rest =>
      match process_item hs st with
      | (inl e, st') => (inl e, st')
      | (inr _, st') => process_chunk rest st'
      end
  end.

(** ** Properties *)


(** The outcome is a success or an exception that [except Exception]
    catches. *)
Definition caught (out : Result unit) : Prop :=
  match out with
  | inl e => isinstance e [ClsException] = true
  | inr _ => True
  end.

Lemma scrape_exhausted (hs mode : string) (w : Retry.World Q S) :
  Retry.always_fails (run mode hs) [ClsException] ->
  exists w', scrape_mode_with_retry hs mode w = (inr (mode, None), w').
Proof.
  intros Hfails. unfold scrape_mode_with_retry.
  destruct (Retry.retry_async_raises (run mode hs) Retry.SCRAPER_RETRY_CONFIG
              [ClsException] w) as (e & w' & -> & ->); [done|done|].
  by exists w'.
Qed.

Lemma transform_db (trade_mode hs : string) (result : Json) (st : State) :
  db (snd (transform trade_mode hs result st)) = db st.
Proof.
  unfold transform.
  destruct (JSONWriter_write _ _ _ _ _) as [e|[raw_file fs1]]; [done|].
  destruct (Processor.process_raw_payload _ _ _) as [e|processed]; [done|].
  destruct (JSONWriter_write _ _ _ _ _) as [e|[processed_file fs2]]; [done|].
  by destruct (write_normalized_file _ _ _) as [e|[out fs3]].
Qed.

(** What one round of the mode loop does to the ledger. *)
Lemma process_mode_db (hs trade_mode : string) (result : Json) (st : State) :
  caught (fst (transform trade_mode hs result st)) ->
  exists st',
    process_mode hs trade_mode (Some result) st = (inr tt, st') /\
    db st' =
      match fst (transform trade_mode hs result st) with
      | inr _ =>
          if String.eqb trade_mode "export" then
            Ledger.mark_export_completed hs
              (current_timestamp (ticks (snd (transform trade_mode hs result st))))
              (db st)
          else
            Ledger.mark_import_completed hs
              (current_timestamp (ticks (snd (transform trade_mode hs result st))))
              (db st)
      | inl e =>
          Ledger.mark_failed hs (error_message e) (Some trade_mode) (db st)
      end.
Proof.
  intros Hcaught. unfold process_mode.
  pose proof (transform_db trade_mode hs result st) as Hdb.
  destruct (transform trade_mode hs result st) as [[e|[]] st_t];
    simpl in Hcaught, Hdb |- *.
  - rewrite Hcaught. eexists. split; [reflexivity|]. simpl. by rewrite Hdb.
  - destruct (String.eqb trade_mode "export");
      (eexists; split; [reflexivity|]); simpl; by rewrite Hdb.
Qed.

(** C1 (as amended): when the export fetch succeeds and its transform
    succeeds while the import fetch exhausts its retries, processing the
    item marks export completed and skips import: import status, overall
    status, error count and last error of the row stay as they were. *)
Theorem export_only_skips_import (hs : string) (st : State)
    (r : Ledger.Row) (export_result : Json) (w1 : Retry.World Q S) :
  db st !! hs = Some r ->
  scrape_mode_with_retry hs "export" (scraper st)
    = (inr ("export", Some export_result), w1) ->
  Retry.always_fails (run "import" hs) [ClsException] ->
  fst (transform "export" hs export_result
         (mkState (snd (scrape_mode_with_retry hs "import" w1))
            (files st) (db st) (ticks st))) = inr tt ->
  exists st' r',
    process_item hs st = (inr tt, st') /\
    db st' !! hs = Some r' /\
    Ledger.export_status r' = Ledger.completed /\
    Ledger.import_status r' = Ledger.import_status r /\
    Ledger.status r' = Ledger.status r /\
    Ledger.error_count r' = Ledger.error_count r /\
    Ledger.last_error r' = Ledger.last_error r.
Proof.
  intros Hrow Hexp Hfails Hok. unfold process_item. rewrite Hexp.
  destruct (scrape_exhausted hs "import" w1 Hfails) as [w2 Himp].
  rewrite Himp in Hok |- *. simpl in Hok.
  destruct (process_mode_db hs "export" export_result
              (mkState w2 (files st) (db st) (ticks st)))
    as (st1 & Hmode & Hdb); [by rewrite Hok|].
  rewrite Hmode. cbn [process_mode]. rewrite Hok in Hdb. simpl in Hdb.
  eexists st1, _. split; [reflexivity|]. rewrite Hdb.
  unfold Ledger.mark_export_completed. rewrite lookup_alter_eq, Hrow. simpl.
  done.
Qed.


End Chunk.

(** ** A run on an in-memory file store *)

Definition Path_eqb (a b : Path) : bool :=
  bool_decide (parents a = parents b) &&
  String.eqb (stem a) (stem b) && String.eqb (suffix a) (suffix b).

Definition MemFS : Type := list (Path * Json).

Definition mem_write (path : Path) (content : Json) (fs : MemFS)
  : Result MemFS :=
  inr ((path, content)
         :: List.filter (fun entry => negb (Path_eqb (fst entry) path)) fs).

Definition mem_read (path : Path) (fs : MemFS) : Result Json :=
  match List.find (fun entry => Path_eqb (fst entry) path) fs with
  | Some (_, content) => inr content
  | None => inl (OSError "No such file or directory")
  end.

(** A site whose export report loads and whose import report times out
    at every attempt; the state counts the import attempts. *)
Definition export_only_site (mode hs : string) : @Retry.Operation nat Json :=
  fun attempts =>
    if String.eqb mode "export" then (inr Normalizer.scenario_payload, attempts)
    else (inl TimeoutError, Datatypes.S attempts).


Definition fresh_state : State nat MemFS :=
  mkState (Retry.idle_world 0%nat) []
    (Ledger.bulk_insert ["61091000"] ∅) 0.

Definition run_chunk (site : string -> string -> @Retry.Operation nat Json)
    (chunk : list string) : Result unit * State nat MemFS :=
  process_chunk site mem_write mem_read
    (fun _ => "00000000-0000-4000-8000-000000000000")
    (fun _ => "2025-01-15T10:30:00+05:30")
    (fun tick => Z.of_nat tick) chunk fresh_state.

Lemma export_only_skips_import_witness :
  exists st' r',
    process_item export_only_site mem_write mem_read
      (fun _ => "00000000-0000-4000-8000-000000000000")
      (fun _ => "2025-01-15T10:30:00+05:30")
      (fun tick => Z.of_nat tick) "61091000" fresh_state = (inr tt, st') /\
    db st' !! "61091000" = Some r' /\
    Ledger.export_status r' = Ledger.completed /\
    Ledger.import_status r' = Ledger.pending.
Proof.
  destruct (export_only_skips_import export_only_site mem_write mem_read
              (fun _ => "00000000-0000-4000-8000-000000000000")
              (fun _ => "2025-01-15T10:30:00+05:30")
              (fun tick => Z.of_nat tick)
              "61091000" fresh_state Ledger.new_row
              Normalizer.scenario_payload (Retry.idle_world 0%nat))
    as (st' & r' & Hrun & Hrow & He & Hi & _).
  - vm_compute. reflexivity.
  - vm_compute. reflexivity.
  - intros attempts. exists TimeoutError. split; reflexivity.
  - vm_compute. reflexivity.
  - exists st', r'. repeat split; assumption.
Defined.

(** C1 as stated fails: after the import fetch has used its four
    attempts, the row has export completed but import still pending, not
    failed, and no error counted. *)
Lemma exhausted_import_not_marked_failed :
  exists st' r',
    run_chunk export_only_site ["61091000"] = (inr tt, st') /\
    Retry.op_state (scraper st') = 4%nat /\
    db st' !! "61091000" = Some r' /\
    Ledger.export_status r' = Ledger.completed /\
    Ledger.status r' = Ledger.pending /\
    Ledger.import_status r' = Ledger.pending /\
    Ledger.import_status r' <> Ledger.failed /\
    Ledger.error_count r' = 0 /\
    Ledger.error_count r' <> Ledger.error_count Ledger.new_row + 1.
Proof.
  eexists _, _. split; [vm_compute; reflexivity|].
  split; [reflexivity|]. split; [vm_compute; reflexivity|].
  repeat split; done.
Qed.


End Worker.

(** * scraper/browser_pool.py

    The pool runs on the single-threaded event loop: between two
    suspension points a coroutine runs alone, so a run of the pool is a
    sequence of events.  [asyncio.Queue] is taken as a FIFO blocking
    queue that hands a new item to the longest-waiting getter, and the
    timer of [asyncio.wait_for] as an event of its own.  [initialize()]
    is run by one task, as [get_global_pool] arranges, and [close_all]
    is not part of the runs considered. *)
Module Pool.

Definition Browser : Type := nat.
Definition Task : Type := nat.

Record BrowserPool : Type := mkPool {
  pool_size : Z;
  (** the items of [available_browsers], oldest first *)
  available_browsers : list Browser;
  (** the callers suspended in [available_browsers.get()] *)
  getters : list Task;
  (** the callers suspended in [available_browsers.put(b)] *)
  putters : list (Task * Browser);
  active_browsers : list Browser;
  initialized : bool;
  (** the loop variable of [initialize()] *)
  init_index : Z;
  (** the task running [initialize()] is suspended in its [put] *)
  init_suspended : bool
}.

(** A pool with the browsers its callers hold: a lease starts when
    [get_browser] returns a browser and ends when the holder passes it to
    [return_browser]. *)
Record System : Type := mkSystem {
  pool : BrowserPool;
  leases : list (Task * Browser)
}.

(** [BrowserPool(pool_size)] *)
Definition new_pool (size : Z) : System :=
  mkSystem (mkPool size [] [] [] [] false 0 false) [].

Inductive Event : Type :=
| InitStep
| GetBrowser (t : Task)
| ReturnBrowser (t : Task) (b : Browser)
| Timeout (t : Task).

(** What a task observes. *)
Inductive Notice : Type :=
| Acquired (t : Task) (b : Browser)
| Suspended (t : Task)
| Raised (t : Task) (e : PyError)
| Returned (t : Task)
| Started (b : Browser).

(** [Queue.full()]: a queue with [maxsize <= 0] is unbounded. *)
Definition full (p : BrowserPool) : bool :=
  (0 <? pool_size p) &&
  (pool_size p <=? Z.of_nat (length (available_browsers p))).

Definition set_queue (p : BrowserPool) (items : list Browser)
    (gs : list Task) (ps : list (Task * Browser)) : BrowserPool :=
  mkPool (pool_size p) items gs ps (active_browsers p) (initialized p)
    (init_index p) (init_suspended p).

(** The task running [initialize()]. *)
Definition INITIALIZER : Task := 0%nat.

(** [t] receives the oldest item of a non-empty queue; the room made
    lets the longest-waiting putter complete. *)
Definition take_item (t : Task) (s : System) : System * list Notice :=
  let p := pool s in
  match available_browsers p with
  | [] => (s, [])
  | b :: rest =>
      match putters p with
      | (t', b') :: ps =>
          let p' := set_queue p (rest ++ [b']) (getters p) ps in
          let p' :=
            if (t' =? INITIALIZER)%nat && init_suspended p then
              mkPool (pool_size p') (available_browsers p') (getters p')
                (putters p') (active_browsers p') (initialized p')
                (init_index p') false
            else p' in
          (mkSystem p' (leases s ++ [(t, b)]), [Acquired t b; Returned t'])
      | [] =>
          (mkSystem (set_queue p rest (getters p) []) (leases s ++ [(t, b)]),
           [Acquired t b])
      end
  end.

(** [await available_browsers.put(b)] by task [t]. *)
Definition queue_put (t : Task) (b : Browser) (s : System)
  : System * list Notice :=
  let p := pool s in
  if full p then
    (mkSystem (set_queue p (available_browsers p) (getters p)
                 (putters p ++ [(t, b)])) (leases s),
     [Suspended t])
  else
    let p1 := set_queue p (available_browsers p ++ [b]) (getters p) (putters p) in
    match getters p with
    | g :: gs =>
        let '(s', notes) :=
          take_item g (mkSystem (set_queue p1 (available_browsers p1) gs
                                   (putters p1)) (leases s)) in
        (s', Returned t :: notes)
    | [] => (mkSystem p1 (leases s), [Returned t])
    end.

(** [get_browser()] up to its first suspension. *)
Definition get_browser (t : Task) (s : System) : System * list Notice :=
  let p := pool s in
  match available_browsers p with
  | [] =>
      (mkSystem (set_queue p [] (getters p ++ [t]) (putters p)) (leases s),
       [Suspended t])
  | _ :: _ => take_item t s
  end.

Fixpoint remove_lease (t : Task) (b : Browser) (l : list (Task * Browser))
  : list (Task * Browser) :=
  match l with
  | [] => []
  | (t', b') :: rest =>
      if (t' =? t)%nat && (b' =? b)%nat then rest
      else (t', b') :: remove_lease t b rest
  end.

(** [return_browser(b)] by the task [t]. *)
Definition return_browser (t : Task) (b : Browser) (s : System)
  : System * list Notice :=
  queue_put t b (mkSystem (pool s) (remove_lease t b (leases s))).

Fixpoint remove_task (t : Task) (l : list Task) : list Task :=
  match l with
  | [] => []
  | t' :: rest => if (t' =? t)%nat then rest else t' :: remove_task t rest
  end.

(** The timer of [wait_for] fires for [t]: a suspended [get] is
    cancelled and [get_browser] raises [asyncio.TimeoutError]. *)
Definition timeout (t : Task) (s : System) : System * list Notice :=
  let p := pool s in
  if existsb (Nat.eqb t) (getters p) then
    (mkSystem (set_queue p (available_browsers p) (remove_task t (getters p))
                 (putters p)) (leases s),
     [Raised t TimeoutError])
  else (s, []).

(** One iteration of [for i in range(self.pool_size)] in
    [initialize()], or the assignment after the loop. *)
Definition init_step (s : System) : System * list Notice :=
  let p := pool s in
  if initialized p || init_suspended p then (s, [])
  else if init_index p <? pool_size p then
    let b := length (active_browsers p) in
    let p1 := mkPool (pool_size p) (available_browsers p) (getters p)
                (putters p) (active_browsers p ++ [b]) false
                (init_index p + 1) (full p) in
    let '(s', notes) := queue_put INITIALIZER b (mkSystem p1 (leases s)) in
    (s', Started b :: notes)
  else
    (mkSystem (mkPool (pool_size p) (available_browsers p) (getters p)
                 (putters p) (active_browsers p) true (init_index p) false)
       (leases s), []).

Definition step (ev : Event) (s : System) : System * list Notice :=
  match ev with
  | InitStep => init_step s
  | GetBrowser t => get_browser t s
  | ReturnBrowser t b => return_browser t b s
  | Timeout t => timeout t s
  end.

Definition run (evs : list Event) (s : System) : System :=
  fold_left (fun s ev => fst (step ev s)) evs s.



(** ** Properties *)










Lemma existsb_elem (t : Task) (l : list Task) :
  t ∈ l -> existsb (Nat.eqb t) l = true.
Proof.
  intros Hin. apply existsb_exists. exists t.
  split; [by apply list_elem_of_In|apply Nat.eqb_refl].
Qed.


(** Pool size 2 and three tasks: the third acquire is suspended until
    the first task returns its browser. *)
Definition three_tasks : list Event :=
  [InitStep; InitStep; InitStep;
   GetBrowser 1%nat; GetBrowser 2%nat; GetBrowser 3%nat].




End Pool.

(** * utils/request_throttler.py

    Times are seconds on the clock of [time.time()], embedded as exact
    rationals.  The body of [wait] runs under [self.lock] from its first
    statement to its last, the sleep included, so the calls are served
    one after the other: a call starts when it is issued or, if the lock
    is held then, when the holder releases it.  Statements other than the
    sleep take no time. *)
Module Throttler.

Local Open Scope Q_scope.

Record RequestThrottler : Type := mkThrottler {
  min_delay : Q;
  max_delay : Q;
  last_request_time : gmap string Q;
  (** the time at which [self.lock] is released by its last holder *)
  lock_free_at : Q
}.

(** [RequestThrottler(min_delay, max_delay)] *)
Definition new_throttler (min_delay max_delay : Q) : RequestThrottler :=
  mkThrottler min_delay max_delay ∅ 0.

(** [random.uniform(a, b)], which is [a + (b - a) * random.random()]. *)
Definition uniform (a b random : Q) : Q := a + (b - a) * random.

(** A call [wait(domain)]: when it is issued, the value that
    [random.random()] gives it, and by how much its sleep overruns. *)
Record Call : Type := mkCall {
  domain : string;
  issued_at : Q;
  random : Q;
  overrun : Q
}.

(** The time at which the body of the call starts: it has the lock. *)
Definition started_at (c : Call) (th : RequestThrottler) : Q :=
  Qmax (issued_at c) (lock_free_at th).

(** [self.last_request_time.get(domain, 0)] *)
Definition last_time (th : RequestThrottler) (domain : string) : Q :=
  match last_request_time th !! domain with
  | Some t => t
  | None => 0
  end.

(** How long the call sleeps. *)
Definition pause (c : Call) (th : RequestThrottler) : Q :=
  let now := started_at c th in
  let time_since_last := now - last_time th (domain c) in
  let required_delay := uniform (min_delay th) (max_delay th) (random c) in
  if Qle_bool required_delay time_since_last then 0
  else (required_delay - time_since_last) + overrun c.

(** [wait(domain)]: the time at which the call returns, which is the
    time it records, and the throttler it leaves. *)
Definition wait (c : Call) (th : RequestThrottler) : Q * RequestThrottler :=
  let finished := started_at c th + pause c th in
  (finished,
   mkThrottler (min_delay th) (max_delay th)
     (<[domain c := finished]> (last_request_time th)) finished).

(** The calls served in the order they take the lock, with the times
    at which they return. *)
Fixpoint serve (calls : list Call) (th : RequestThrottler)
  : list Q * RequestThrottler :=
  match calls with
  | [] => ([], th)
  | c :: rest =>
      let '(t, th') := wait c th in
      let '(ts, th'') := serve rest th' in
      (t :: ts, th'')
  end.

(** ** Properties *)





Lemma Qle_bool_false (x y : Q) : Qle_bool x y = false -> y < x.
Proof.
  intros H. apply Qnot_le_lt. intros Hle.
  apply Qle_bool_iff in Hle. congruence.
Qed.



(** Two calls for one host and one for another, all issued at time 100. *)
Definition host_a (r : Q) : Call := mkCall "a.example" 100 r 0.
Definition host_b : Call := mkCall "b.example" 100 0 0.



End Throttler.

(** * More of utils/hs_code_db.py: pending queries and histories *)
Module LedgerQueries.
Import Ledger.

#[global] Instance Status_eq_dec : EqDecision Status.
Proof. solve_decision. Defined.

(** [SELECT hs_code FROM hs_codes WHERE status = 'pending']; the order
    of the rows is the store's. *)
Definition get_pending (db : Table) : list string :=
  (map_to_list (filter (fun kv => status (snd kv) = pending) db)).*1.

Definition get_pending_export (db : Table) : list string :=
  (map_to_list (filter (fun kv => export_status (snd kv) = pending) db)).*1.

Definition get_pending_import (db : Table) : list string :=
  (map_to_list (filter (fun kv => import_status (snd kv) = pending) db)).*1.

(** [SELECT hs_code FROM hs_codes] *)
Definition get_all (db : Table) : list string := (map_to_list db).*1.

(** ** Properties *)

Lemma bulk_insert_lookup (codes : list string) (db : Table) (x : string) :
  bulk_insert codes db !! x =
    match db !! x with
    | Some r => Some r
    | None => if decide (x ∈ codes) then Some new_row else None
    end.
Proof.
  unfold bulk_insert. revert db.
  induction codes as [|c codes IH]; intros db; cbn [fold_left].
  - destruct (db !! x); [done|]. case_decide; [set_solver|done].
  - rewrite IH, insert_or_ignore_lookup.
    destruct (db !! x) as [r|]; [done|].
    destruct (decide (c = x)) as [->|Hne].
    + destruct (decide (x ∈ x :: codes)) as [|Hn]; [done|].
      exfalso. apply Hn. left.
    + destruct (decide (x ∈ codes)) as [Hin|Hin],
        (decide (x ∈ c :: codes)) as [Hin'|Hin']; try done.
      * exfalso. apply Hin'. by right.
      * exfalso. apply elem_of_cons in Hin' as [->|]; done.
Qed.

(** X1: Bulk insert keeps every existing row as it is, gives each new code a
    fresh pending row, and inserting the same codes again changes
    nothing. *)
Theorem bulk_insert_idempotent (codes : list string) (db : Table) :
  (forall x r, db !! x = Some r -> bulk_insert codes db !! x = Some r) /\
  (forall x, x ∈ codes -> db !! x = None ->
             bulk_insert codes db !! x = Some new_row) /\
  (forall x, x ∉ codes -> bulk_insert codes db !! x = db !! x) /\
  bulk_insert codes (bulk_insert codes db) = bulk_insert codes db.
Proof.
  split; [|split; [|split]].
  - intros x r Hx. by rewrite bulk_insert_lookup, Hx.
  - intros x Hin Hx. rewrite bulk_insert_lookup, Hx. by rewrite decide_True.
  - intros x Hin. rewrite bulk_insert_lookup.
    destruct (db !! x); [done|]. by rewrite decide_False.
  - apply map_eq. intros x. rewrite !bulk_insert_lookup.
    destruct (db !! x); [done|]. by destruct (decide (x ∈ codes)).
Qed.

Lemma bulk_insert_idempotent_witness :
  bulk_insert ["61091000"; "61091001"]
    (mark_completed "61091000" 5 (bulk_insert ["61091000"] ∅)) !! "61091000"
    = Some (mkRow completed (Some 5) completed completed None None 0 None) /\
  bulk_insert ["61091000"; "61091001"]
    (mark_completed "61091000" 5 (bulk_insert ["61091000"] ∅)) !! "61091001"
    = Some new_row.
Proof.
  destruct (bulk_insert_idempotent ["61091000"; "61091001"]
              (mark_completed "61091000" 5 (bulk_insert ["61091000"] ∅)))
    as (Hkeep & Hnew & _).
  split.
  - apply Hkeep. vm_compute. reflexivity.
  - apply Hnew; [|vm_compute; reflexivity].
    apply (bool_decide_unpack _). reflexivity.
Defined.

Lemma apply_op_keeps_rows (db : Table) (op : Op) (x : string) (r : Row) :
  db !! x = Some r ->
  exists r', apply_op db op !! x = Some r' /\ error_count r <= error_count r'.
Proof.
  intros Hx. destruct op as [codes|c now|c now|c now|c e m]; simpl.
  - exists r. split; [|lia]. by rewrite bulk_insert_lookup, Hx.
  - unfold mark_completed. rewrite lookup_alter. case_decide; subst;
      rewrite ?Hx; eexists; (split; [reflexivity|simpl; lia]).
  - unfold mark_export_completed. rewrite lookup_alter. case_decide; subst;
      rewrite ?Hx; eexists; (split; [reflexivity|simpl; lia]).
  - unfold mark_import_completed. rewrite lookup_alter. case_decide; subst;
      rewrite ?Hx; eexists; (split; [reflexivity|simpl; lia]).
  - unfold mark_failed. repeat case_decide; rewrite lookup_alter;
      case_decide; subst; rewrite ?Hx;
      eexists; (split; [reflexivity|simpl; lia]).
Qed.

(** X2: Over any history of operations a row is never deleted and its
    error count never decreases. *)
Theorem rows_persist (ops : list Op) (db : Table) (x : string) (r : Row) :
  db !! x = Some r ->
  exists r', fold_left apply_op ops db !! x = Some r' /\
             error_count r <= error_count r'.
Proof.
  revert db r. induction ops as [|op ops IH]; intros db r Hx; simpl.
  - exists r. split; [done|lia].
  - destruct (apply_op_keeps_rows db op x r Hx) as (r1 & Hr1 & Hle).
    destruct (IH _ _ Hr1) as (r2 & Hr2 & Hle2). exists r2. split; [done|lia].
Qed.

Lemma rows_persist_witness :
  exists r', run sample_history !! "61091000" = Some r' /\
             0 <= error_count r'.
Proof.
  destruct (rows_persist (tail sample_history)
              (bulk_insert ["61091000"] ∅) "61091000" new_row)
    as (r' & Hr' & Hle); [vm_compute; reflexivity|].
  exists r'. split; [exact Hr'|exact Hle].
Defined.

Lemma elem_of_get_pending (db : Table) (x : string) :
  x ∈ get_pending db <-> exists r, db !! x = Some r /\ status r = pending.
Proof.
  unfold get_pending. rewrite list_elem_of_fmap. split.
  - intros ([k r] & -> & Hin). apply elem_of_map_to_list in Hin.
    apply map_lookup_filter_Some in Hin as [Hk Hp]. by exists r.
  - intros (r & Hx & Hp). exists (x, r). split; [done|].
    apply elem_of_map_to_list. by apply map_lookup_filter_Some.
Qed.

(** X3: An item leaves the pending work list when it is marked completed or
    failed as a whole, and only then: marking one of its modes completed
    or failed leaves the list as it is. *)
Theorem pending_after_marks (db : Table) (x y : string) (now : Z)
    (error : string) :
  (x ∉ get_pending (mark_completed x now db)) /\
  (x ∉ get_pending (mark_failed x error None db)) /\
  (y ∈ get_pending (mark_export_completed x now db) <-> y ∈ get_pending db) /\
  (y ∈ get_pending (mark_import_completed x now db) <-> y ∈ get_pending db) /\
  (y ∈ get_pending (mark_failed x error (Some "export") db)
     <-> y ∈ get_pending db) /\
  (y ∈ get_pending (mark_failed x error (Some "import") db)
     <-> y ∈ get_pending db).
Proof.
  rewrite !elem_of_get_pending.
  unfold mark_completed, mark_failed, mark_export_completed,
    mark_import_completed; simpl.
  split; [|split].
  - rewrite lookup_alter_eq. intros (r & Hr & Hp).
    destruct (db !! x); simpl in Hr; [|done]. by injection Hr as <-.
  - rewrite lookup_alter_eq. intros (r & Hr & Hp).
    destruct (db !! x); simpl in Hr; [|done]. by injection Hr as <-.
  - repeat split; rewrite lookup_alter; case_decide; subst; try done;
      destruct (db !! y) as [r0|] eqn:Hy; simpl;
      intros (r & Hr & Hp); try done; injection Hr as <-; eauto.
Qed.

Lemma pending_after_marks_witness :
  "61091000" ∈ get_pending (mark_export_completed "61091000" 5
                              (bulk_insert ["61091000"] ∅)).
Proof.
  destruct (pending_after_marks (bulk_insert ["61091000"] ∅)
              "61091000" "61091000" 5 "") as (_ & _ & Hexport & _).
  apply Hexport. apply elem_of_get_pending. exists new_row.
  split; [vm_compute; reflexivity|reflexivity].
Defined.

End LedgerQueries.

(** * More of utils/retry_manager.py: the paths that do not exhaust the
    budget, and the size of the delays *)
Module RetryPaths.
Import Retry.






(** ** Properties *)

Section Settling.
Context {F : Type} {ops : FloatOps F} {S A : Type} (func : @Operation S A).
Variable config : RetryConfig F.
Variable classes : list PyClass.



End Settling.




Local Open Scope Q_scope.






End RetryPaths.

(** * More of pipeline/chunker.py: small inputs and resumption *)
Module ChunkerResume.
Import Chunker.

Section Shift.
Context {A : Type} (data : list A) (s : Z).
Hypothesis Hs : 0 < s.

Lemma range_from_fuel (f f' : nat) (i stop : Z) :
  stop - i <= Z.of_nat f -> stop - i <= Z.of_nat f' ->
  range_from f i stop s = range_from f' i stop s.
Proof using Hs.
  revert f' i. induction f as [|f IH]; intros [|f'] i Hf Hf'; simpl; try done.
  - destruct (Z.ltb_spec i stop); [lia|done].
  - destruct (Z.ltb_spec i stop); [lia|done].
  - destruct (Z.ltb_spec i stop); [|done]. f_equal. apply IH; lia.
Qed.

Lemma range_from_nonneg (f : nat) (i stop : Z) :
  0 <= i -> Forall (fun x => 0 <= x) (range_from f i stop s).
Proof using Hs.
  revert i. induction f as [|f IH]; intros i Hi; simpl; [constructor|].
  destruct (i <? stop); constructor; [done|]. apply IH. lia.
Qed.

Lemma range_from_shift (f : nat) (i : Z) :
  0 <= i ->
  range_from f (i + s) (Z.of_nat (length data)) s =
    map (fun j => j + s)
      (range_from f i (Z.of_nat (length (drop (Z.to_nat s) data))) s).
Proof using Hs.
  revert i. induction f as [|f IH]; intros i Hi; simpl; [done|].
  rewrite length_drop.
  destruct (Z.ltb_spec (i + s) (Z.of_nat (length data))),
    (Z.ltb_spec i (Z.of_nat (length data - Z.to_nat s))); try lia; [|done].
  simpl. f_equal. rewrite IH by lia. by rewrite length_drop.
Qed.

Lemma py_slice_shift (j : Z) :
  0 <= j ->
  py_slice data (j + s) (j + s + s) =
    py_slice (drop (Z.to_nat s) data) j (j + s).
Proof using Hs.
  intros Hj. rewrite !py_slice_nonneg by lia. rewrite drop_drop.
  do 2 f_equal. lia.
Qed.

End Shift.

(** ** Properties *)

(** The first chunk is the first S items and the other chunks are the
    chunks of the rest of the list. *)
Lemma chunk_list_unfold {A} (data : list A) (s : Z) :
  0 < s -> data <> [] ->
  exists rest,
    chunk_list (drop (Z.to_nat s) data) s = inr rest /\
    chunk_list data s = inr (take (Z.to_nat s) data :: rest).
Proof.
  intros Hs Hdata. eexists. split; [by apply chunk_list_ok|].
  rewrite chunk_list_ok by done. f_equal.
  assert (Hlen : exists n, length data = Datatypes.S n)
    by (destruct data; [done|eauto]).
  destruct Hlen as [n Hlen].
  assert (Hrange :
    range_from (length data) 0 (Z.of_nat (length data)) s
    = 0 :: range_from n (0 + s) (Z.of_nat (length data)) s).
  { rewrite Hlen at 1. cbn [range_from].
    destruct (Z.ltb_spec 0 (Z.of_nat (length data))); [done|lia]. }
  rewrite Hrange. cbn [map]. f_equal.
  - rewrite py_slice_nonneg by lia. by rewrite drop_0.
  - rewrite (range_from_fuel s Hs n (length (drop (Z.to_nat s) data))
               (0 + s) _).
    + rewrite (range_from_shift data s Hs) by lia. rewrite map_map.
      apply Forall_fmap_ext_1.
      eapply Forall_impl; [apply (range_from_nonneg s Hs); lia|].
      intros j Hj. simpl. by apply py_slice_shift.
    + lia.
    + rewrite length_drop. lia.
Qed.

(** X7: A list that fits in one chunk gives that one chunk, and the empty
    list gives no chunk. *)
Theorem chunk_list_small {A} (data : list A) (s : Z) :
  0 < s ->
  chunk_list (@nil A) s = inr [] /\
  (data <> [] -> Z.of_nat (length data) <= s -> chunk_list data s = inr [data]).
Proof.
  intros Hs. split; [by rewrite chunk_list_ok|].
  intros Hdata Hlen.
  destruct (chunk_list_unfold data s Hs Hdata) as (rest & Hrest & ->).
  rewrite drop_ge in Hrest by lia. rewrite chunk_list_ok in Hrest by done.
  injection Hrest as <-. by rewrite take_ge by lia.
Qed.

Lemma chunk_list_small_witness :
  chunk_list ["61091000"; "61091010"] 25 = inr [["61091000"; "61091010"]].
Proof.
  destruct (chunk_list_small ["61091000"; "61091010"] 25) as [_ H]; [lia|].
  apply H; [discriminate|simpl; lia].
Defined.

(** X8: Chunking what is left after the first k chunks gives the other
    chunks: the chunks after the k-th depend only on the items after the
    first k * S. *)
Theorem chunk_list_resume {A} (data : list A) (s : Z) (k : nat)
    (chunks : list (list A)) :
  0 < s ->
  chunk_list data s = inr chunks ->
  chunk_list (drop (k * Z.to_nat s) data) s = inr (drop k chunks).
Proof.
  intros Hs. revert data chunks.
  induction k as [|k IH]; intros data chunks Hchunks.
  - by rewrite !drop_0.
  - destruct data as [|x data].
    + rewrite chunk_list_ok in Hchunks by done. injection Hchunks as <-.
      rewrite drop_nil. by rewrite chunk_list_ok.
    + destruct (chunk_list_unfold (x :: data) s Hs) as (rest & Hrest & Hall);
        [done|].
      rewrite Hall in Hchunks. injection Hchunks as <-.
      change (drop (Datatypes.S k) (take (Z.to_nat s) (x :: data) :: rest))
        with (drop k rest).
      rewrite <- (IH _ _ Hrest), drop_drop.
      by replace (Z.to_nat s + k * Z.to_nat s)%nat
        with (Datatypes.S k * Z.to_nat s)%nat by lia.
Qed.

Lemma chunk_list_resume_witness :
  chunk_list (drop (1 * Z.to_nat 2) [1; 2; 3; 4; 5]) 2 = inr [[3; 4]; [5]].
Proof.
  apply (chunk_list_resume [1; 2; 3; 4; 5] 2 1 [[1; 2]; [3; 4]; [5]]);
    [lia|reflexivity].
Defined.

End ChunkerResume.

(** * More of storage/processor.py and storage/normalizer.py: schema
    errors, shapes and key precedence *)
Module TransformFacts.
Import Py Processor Normalizer.

(** The keys of a dict, in order. *)
Definition keys (d : Dict) : list string := map fst d.

(** The number of rows that iterating [block["partner_countries"]]
    yields. *)
Definition partner_count (block : Json) : nat :=
  match py_get block "partner_countries" (JList []) with
  | inr v =>
      match py_iter v with
      | inr l => length l
      | inl _ => 0%nat
      end
  | inl _ => 0%nat
  end.

(** The columns that [flatten_row] writes after the partner row. *)
Definition summary_columns : list string :=
  ["summary_total_selected_prev"; "summary_total_selected_curr";
   "summary_total_selected_growth"; "summary_india_prev";
   "summary_india_curr"; "summary_india_growth";
   "summary_share_prev"; "summary_share_curr"].

(** ** Inversion of successful steps *)

Lemma bind_inr {A B : Type} (m : Result A) (k : A -> Result B) (b : B) :
  bind m k = inr b -> exists a, m = inr a /\ k a = inr b.
Proof. destruct m as [e|a]; simpl; [done|]. intros H. by exists a. Qed.

Lemma inr_inj {A : Type} (x y : A) : @inr PyError A x = inr y -> x = y.
Proof. congruence. Qed.

Lemma inr_JDict_inj (x y : Dict) :
  @inr PyError Json (JDict x) = inr (JDict y) -> x = y.
Proof. congruence. Qed.

(** ** Dictionaries *)

Lemma dict_lookup_None (d : Dict) (k : string) :
  dict_lookup d k = None <-> k ∉ keys d.
Proof.
  induction d as [|[k' v] d IH]; simpl.
  - split; [intros _ H; by apply elem_of_nil in H|done].
  - destruct (String.eqb_spec k' k) as [->|Hne].
    + split; [done|]. intros H. exfalso. apply H. left.
    + rewrite IH. split.
      * intros H Hin. apply elem_of_cons in Hin as [->|Hin]; done.
      * intros H Hin. apply H. by right.
Qed.

Lemma dict_set_fresh (d : Dict) (k : string) (v : Json) :
  k ∉ keys d -> dict_set d k v = d ++ [(k, v)].
Proof.
  induction d as [|[k' v'] d IH]; simpl; [done|].
  intros Hk. destruct (String.eqb_spec k' k) as [->|Hne].
  - exfalso. apply Hk. left.
  - f_equal. apply IH. intros Hin. apply Hk. by right.
Qed.

Lemma dict_lookup_set (d : Dict) (k k' : string) (v : Json) :
  dict_lookup (dict_set d k v) k' =
    if String.eqb k k' then Some v else dict_lookup d k'.
Proof.
  induction d as [|[k0 v0] d IH]; simpl.
  - done.
  - destruct (String.eqb_spec k0 k) as [->|Hne]; simpl.
    + by destruct (String.eqb_spec k k').
    + destruct (String.eqb_spec k0 k') as [->|Hne'].
      * destruct (String.eqb_spec k k'); [congruence|done].
      * exact IH.
Qed.

Lemma dict_update_other (d es : Dict) (k : string) :
  k ∉ keys es -> dict_lookup (dict_update d es) k = dict_lookup d k.
Proof.
  unfold dict_update. revert d.
  induction es as [|[k' v] es IH]; intros d Hk; simpl; [done|].
  rewrite IH by (intros Hin; apply Hk; by right).
  rewrite dict_lookup_set. destruct (String.eqb_spec k' k) as [->|]; [|done].
  exfalso. apply Hk. left.
Qed.

Lemma dict_update_lookup (d es : Dict) (k : string) (v : Json) :
  NoDup (keys es) -> dict_lookup es k = Some v ->
  dict_lookup (dict_update d es) k = Some v.
Proof.
  unfold dict_update. revert d.
  induction es as [|[k' v'] es IH]; intros d Hnd Hk; simpl in *; [done|].
  apply NoDup_cons in Hnd as [Hk' Hnd].
  destruct (String.eqb_spec k' k) as [->|Hne].
  - injection Hk as ->.
    change (dict_lookup (dict_update (dict_set d k v) es) k = Some v).
    rewrite dict_update_other by done.
    rewrite dict_lookup_set. by rewrite String.eqb_refl.
  - by apply IH.
Qed.

(** Filling an empty dict from items with distinct keys keeps the keys
    in their order. *)
Lemma fold_dict_set_distinct (f : Json -> Json) (items acc : Dict) :
  NoDup (keys acc ++ keys items) ->
  fold_left (fun obj kv => dict_set obj (fst kv) (f (snd kv))) items acc
    = acc ++ map (fun kv => (fst kv, f (snd kv))) items.
Proof.
  revert acc. induction items as [|[k v] items IH]; intros acc Hnd; simpl.
  - by rewrite app_nil_r.
  - rewrite dict_set_fresh.
    + rewrite IH.
      * by rewrite <- app_assoc.
      * unfold keys in *. rewrite map_app. simpl. by rewrite <- app_assoc.
    + apply NoDup_app in Hnd as (_ & Hdisj & _). intros Hin.
      apply (Hdisj k Hin). left.
Qed.

Lemma mapM_length {A B} (f : A -> Result B) (l : list A) (l' : list B) :
  mapM f l = inr l' -> length l' = length l.
Proof.
  revert l'. induction l as [|x l IH]; intros l' H; simpl in H.
  - by injection H as <-.
  - destruct (f x); simpl in H; [done|].
    destruct (mapM f l); simpl in H; [done|].
    injection H as <-. simpl. by rewrite (IH _ eq_refl).
Qed.

Lemma mapM_total {A B} (f : A -> B) (l : list A) :
  mapM (fun x => inr (f x)) l = inr (map f l).
Proof. induction l as [|x l IH]; simpl; [done|]. by rewrite IH. Qed.

(** ** Properties of the Process stage *)

(** X9: Cleaning keeps the shape of the partner rows: as many rows, each
    with its keys in their order, every value cleaned on its own. *)
Theorem clean_rows_shape (rows : list Dict) :
  Forall (fun d => NoDup (keys d)) rows ->
  clean_rows (JList (map JDict rows)) =
    inr (JList (map (fun d =>
                       JDict (map (fun kv => (fst kv, clean_value (snd kv))) d))
                  rows)).
Proof.
  intros Hrows. unfold clean_rows.
  destruct rows as [|d rows]; [done|].
  change (py_truthy (JList (map JDict (d :: rows)))) with true.
  cbn [negb py_iter bind].
  assert (Hmap : mapM clean_row (map JDict (d :: rows)) =
    inr (map (fun d => JDict (map (fun kv => (fst kv, clean_value (snd kv))) d))
           (d :: rows))).
  { induction Hrows as [|d0 rows0 Hd _ IH]; [done|].
    cbn [map mapM]. unfold clean_row at 1. cbn [py_items bind].
    rewrite (fold_dict_set_distinct clean_value d0 [])
      by (by rewrite app_nil_l).
    rewrite IH. done. }
  by rewrite Hmap.
Qed.

Lemma clean_rows_shape_witness :
  clean_rows (JList [JDict [("Country", JStr " U S A ");
                            ("2023-2024", JStr "12,345.6")]])
  = inr (JList [JDict [("Country", JStr "U S A");
                       ("2023-2024", JStr "12345.6")]]).
Proof.
  apply (clean_rows_shape [[("Country", JStr " U S A ");
                            ("2023-2024", JStr "12,345.6")]]).
  constructor; [|constructor].
  apply (bool_decide_unpack _). reflexivity.
Defined.

Lemma process_years_keys (items acc years : Dict) :
  process_years items acc = inr years ->
  NoDup (keys acc ++ keys items) ->
  keys years = keys acc ++ keys items.
Proof.
  revert acc. induction items as [|[year block] items IH];
    intros acc H Hnd; simpl in H.
  - injection H as <-. by rewrite app_nil_r.
  - destruct (process_year block) as [e|entry]; simpl in H; [done|].
    assert (Hfresh : year ∉ keys acc).
    { apply NoDup_app in Hnd as (_ & Hdisj & _). intros Hin.
      apply (Hdisj year Hin). left. }
    rewrite dict_set_fresh in H by done.
    rewrite (IH _ H).
    + unfold keys. rewrite map_app. simpl. by rewrite <- app_assoc.
    + unfold keys in *. rewrite map_app. simpl. by rewrite <- app_assoc.
Qed.

(** X10: A processed record keeps the metadata of the raw payload as it is
    and has one entry per year of the raw payload, in the same order,
    under the key "years". *)
Theorem process_keeps_years (record_id processed_at : string)
    (d items : Dict) (processed : Json) :
  process_raw_payload record_id processed_at (JDict d) = inr processed ->
  dict_lookup d "data_by_year" = Some (JDict items) ->
  NoDup (keys items) ->
  exists years,
    py_getitem processed "years" = inr (JDict years) /\
    keys years = keys items /\
    py_getitem processed "metadata" = py_getitem (JDict d) "metadata".
Proof.
  intros H Hdata Hnd. unfold process_raw_payload in H.
  cbn [py_in py_getitem bind] in H. rewrite Hdata in H.
  invert_bind H. injection H as <-.
  match goal with
  | Hy : process_years items [] = inr ?ys |- _ =>
      exists ys; split; [reflexivity|]; split;
        [by apply (process_years_keys _ [] _ Hy)|]
  end.
  match goal with
  | Hm : _ = inr ?m |- _ = py_getitem (JDict d) "metadata" =>
      symmetry; exact Hm
  end.
Qed.

Definition two_years : Dict :=
  [("2023-2024", JDict [("partner_countries", JNull)]);
   ("2024-2025", JDict [("partner_countries", JNull)])].

Lemma process_keeps_years_witness :
  exists processed years,
    process_raw_payload "id" "now"
      (JDict [("metadata", JDict [("hs_code", JStr "61091000")]);
              ("data_by_year", JDict two_years)]) = inr processed /\
    py_getitem processed "years" = inr (JDict years) /\
    keys years = ["2023-2024"; "2024-2025"].
Proof.
  destruct (process_keeps_years "id" "now"
              [("metadata", JDict [("hs_code", JStr "61091000")]);
               ("data_by_year", JDict two_years)] two_years _ eq_refl)
    as (years & Hy & Hk & _).
  - reflexivity.
  - apply (bool_decide_unpack _). reflexivity.
  - eexists _, years. split; [reflexivity|]. split; [exact Hy|exact Hk].
Defined.



Lemma str_take_take (m n : nat) (s : string) :
  (m <= n)%nat -> str_take m (str_take n s) = str_take m s.
Proof.
  revert n s. induction m as [|m IH]; intros [|n] [|c s] Hmn; simpl;
    try done; try lia.
  f_equal. apply IH. lia.
Qed.

Lemma str_take_length (n : nat) (s : string) :
  String.length (str_take n s) = Nat.min n (String.length s).
Proof.
  revert s. induction n as [|n IH]; intros [|c s]; simpl; try done.
  by rewrite IH.
Qed.

Lemma str_take_is_prefix (n : nat) (s : string) :
  is_prefix (str_take n s) s = true.
Proof.
  revert s. induction n as [|n IH]; intros [|c s]; simpl; try done.
  by rewrite Ascii.eqb_refl, IH.
Qed.

(** X12: The hierarchy of a code is nested: the chapter starts the heading,
    the heading the sub-heading, and the sub-heading the code; a code of
    8 characters gives 2, 4 and 6 characters, a shorter one is not
    refused, and a code that is a number raises [TypeError]. *)
Theorem parse_hs_nested (code : string) :
  parse_hs (JStr code) =
    inr (JDict [("hs8", JStr code);
                ("sub_heading", JStr (str_take 6 code));
                ("heading", JStr (str_take 4 code));
                ("chapter", JStr (str_take 2 code))]) /\
  str_take 2 code = str_take 2 (str_take 4 code) /\
  str_take 4 code = str_take 4 (str_take 6 code) /\
  is_prefix (str_take 6 code) code = true /\
  (String.length code = 8%nat ->
   String.length (str_take 6 code) = 6%nat /\
   String.length (str_take 4 code) = 4%nat /\
   String.length (str_take 2 code) = 2%nat) /\
  (forall n, exists e, parse_hs (JInt n) = inl (TypeError e)).
Proof.
  split; [reflexivity|]. split; [by rewrite str_take_take by lia|].
  split; [by rewrite str_take_take by lia|].
  split; [apply str_take_is_prefix|]. split.
  - intros Hlen. rewrite !str_take_length, Hlen. done.
  - intros n. eexists. reflexivity.
Qed.

Lemma parse_hs_nested_witness :
  String.length (str_take 6 "61091000") = 6%nat /\
  String.length (str_take 4 "61091000") = 4%nat /\
  String.length (str_take 2 "61091000") = 2%nat.
Proof.
  destruct (parse_hs_nested "61091000") as (_ & _ & _ & _ & H & _).
  apply H. reflexivity.
Defined.

(** ** Properties of the Normalize stage *)

Lemma normalize_years_count (metadata hs : Json) (items : Dict)
    (acc rows : list Json) :
  normalize_years metadata hs items acc = inr rows ->
  length rows =
    (length acc + sum_list (map (fun kv => partner_count (snd kv)) items))%nat.
Proof.
  revert acc. induction items as [|[year block] items IH];
    intros acc H; simpl in H.
  - injection H as <-. simpl. lia.
  - unfold normalize_year in H.
    destruct (py_get block "partner_countries" (JList [])) as [e|pr] eqn:Hpr;
      simpl in H; [done|].
    destruct (py_get block "summary" (JDict [])) as [e|sm]; simpl in H; [done|].
    destruct (py_iter pr) as [e|l] eqn:Hl; simpl in H; [done|].
    destruct (mapM _ l) as [e|rs] eqn:Hrs; simpl in H; [done|].
    rewrite (IH _ H), length_app, (mapM_length _ _ _ Hrs). simpl.
    unfold partner_count. rewrite Hpr, Hl. lia.
Qed.

(** X13: Normalize emits one row per year and partner of the record's
    "data_by_year", and no row at all, without an error, for a record that
    has no such key. *)
Theorem normalize_row_count (d : Dict) :
  (forall items rows,
     normalize_processed_payload (JDict d) = inr rows ->
     dict_lookup d "data_by_year" = Some (JDict items) ->
     length rows = sum_list (map (fun kv => partner_count (snd kv)) items)) /\
  (dict_lookup d "data_by_year" = None ->
   normalize_processed_payload (JDict d) = inr []).
Proof.
  unfold normalize_processed_payload. cbn [py_get bind]. split.
  - intros items rows H Hdata.
    destruct (dict_lookup d "metadata"), (dict_lookup d "hs");
      rewrite Hdata in H; cbn [bind py_items] in H;
      by apply normalize_years_count in H.
  - intros ->. by destruct (dict_lookup d "metadata"), (dict_lookup d "hs").
Qed.

Lemma normalize_row_count_witness :
  exists rows,
    normalize_processed_payload scenario_payload = inr rows /\
    length rows = 6%nat.
Proof.
  destruct (normalize_processed_payload scenario_payload) as [e|rows] eqn:H;
    [vm_compute in H; discriminate H|].
  exists rows. split; [reflexivity|].
  destruct (normalize_row_count
              [("status", JStr "SUCCESS");
               ("metadata", scenario_metadata);
               ("data_by_year",
                JDict [("2023-2024",
                        year_block (fun n c => partner_row n c "2022-2023" "2023-2024"));
                       ("2024-2025",
                        year_block (fun n c => partner_row n c "2023-2024" "2024-2025"))])])
    as [Hcount _].
  exact (Hcount _ rows H eq_refl).
Defined.

(** X14: In a flattened row the columns of the partner row take precedence
    over the metadata, hierarchy and year columns written before them,
    the year column is the year of the loop when the partner row has
    none, and the summary columns, written last, never come from the
    partner row. *)
Theorem flatten_row_precedence (metadata hs : Json) (year : string)
    (summary : Json) (d flat : Dict) :
  flatten_row metadata hs year summary (JDict d) = inr (JDict flat) ->
  NoDup (keys d) ->
  (forall k v, dict_lookup d k = Some v -> k ∉ summary_columns ->
               dict_lookup flat k = Some v) /\
  (dict_lookup d "year" = None -> dict_lookup flat "year" = Some (JStr year)) /\
  (exists flat0,
     flatten_row metadata hs year summary (JDict []) = inr (JDict flat0) /\
     forall k, k ∈ summary_columns -> dict_lookup flat k = dict_lookup flat0 k).
Proof.
  intros H Hnd. unfold flatten_row in H |- *.
  repeat match type of H with
  | bind ?m _ = inr _ =>
      let a := fresh "a" in let E := fresh "E" in
      apply bind_inr in H as (a & E & H); cbv beta in H
  end.
  apply inr_JDict_inj in H. subst flat.
  match goal with E : inr _ = inr _ |- _ => apply inr_inj in E; subst end.
  repeat match goal with
  | E : ?m = inr _ |- context [?m] => rewrite E
  end.
  cbv beta iota delta [bind]. split; [|split].
  - intros k v Hk Hsum.
    rewrite dict_update_other by exact Hsum.
    by apply dict_update_lookup.
  - intros Hyear.
    rewrite dict_update_other
      by (apply (bool_decide_unpack _); reflexivity).
    rewrite dict_update_other by (by apply dict_lookup_None).
    reflexivity.
  - eexists. split; [reflexivity|]. intros k Hk.
    assert (Hnds : forall a b c e f g h i : Json,
      NoDup (keys [("summary_total_selected_prev", a);
                   ("summary_total_selected_curr", b);
                   ("summary_total_selected_growth", c);
                   ("summary_india_prev", e); ("summary_india_curr", f);
                   ("summary_india_growth", g); ("summary_share_prev", h);
                   ("summary_share_curr", i)]))
      by (intros; apply (bool_decide_unpack _); reflexivity).
    unfold summary_columns in Hk.
    repeat (apply elem_of_cons in Hk as [->|Hk]);
      [..|by apply elem_of_nil in Hk];
      erewrite !dict_update_lookup; try reflexivity; apply Hnds.
Qed.

Lemma flatten_row_precedence_witness :
  exists flat,
    flatten_row (JDict []) (JDict [("chapter", JStr "61")]) "2023-2024"
      (JDict []) (JDict [("Country", JStr "U S A"); ("chapter", JStr "99")])
    = inr (JDict flat) /\
    dict_lookup flat "chapter" = Some (JStr "99") /\
    dict_lookup flat "year" = Some (JStr "2023-2024").
Proof.
  destruct (flatten_row (JDict []) (JDict [("chapter", JStr "61")])
              "2023-2024" (JDict [])
              (JDict [("Country", JStr "U S A"); ("chapter", JStr "99")]))
    as [e|[| | | | | |flat]] eqn:H; try (vm_compute in H; discriminate H).
  exists flat. split; [reflexivity|].
  destruct (flatten_row_precedence _ _ _ _ _ _ H) as (Hrow & Hyear & _).
  - apply (bool_decide_unpack _). reflexivity.
  - split; [apply Hrow; [reflexivity|]|by apply Hyear].
    apply (bool_decide_unpack _). reflexivity.
Defined.

End TransformFacts.

(** * More of pipeline/worker.py: the other paths through an item, the
    rows a chunk touches, the exceptions it lets through and the files
    of the three stages *)
Module WorkerPaths.
Import Py Worker.

(** The outcome is a success or an exception of class [Exception]. *)
Definition ordinary {A} (r : Result A) : Prop :=
  match r with
  | inl e => isinstance e [ClsException] = true
  | inr _ => True
  end.

(** The second table has the rows of the first, changed at most at
    [hs]. *)
Definition touches_only (hs : string) (d d' : Ledger.Table) : Prop :=
  forall x, (x <> hs -> d' !! x = d !! x) /\ (d !! x = None -> d' !! x = None).

(** ** The exceptions of the transform stages *)



Lemma ordinary_py_get (x : Json) (key : string) (default : Json) :
  ordinary (py_get x key default).
Proof. destruct x; simpl; try done. by destruct (dict_lookup _ _). Qed.

Lemma ordinary_py_getitem (x : Json) (key : string) :
  ordinary (py_getitem x key).
Proof. destruct x; simpl; try done. by destruct (dict_lookup _ _). Qed.

Lemma ordinary_py_in (key : string) (x : Json) : ordinary (py_in key x).
Proof. by destruct x. Qed.

Lemma ordinary_py_items (x : Json) : ordinary (py_items x).
Proof. by destruct x. Qed.

Lemma ordinary_py_iter (x : Json) : ordinary (py_iter x).
Proof. by destruct x. Qed.

Lemma ordinary_py_prefix (x : Json) (n : nat) : ordinary (py_prefix x n).
Proof. by destruct x. Qed.

Lemma ordinary_clean (x : Json) : ordinary (Processor.clean x).
Proof. by destruct x. Qed.

Lemma ordinary_split_first (x : Json) : ordinary (split_first x).
Proof. destruct x; simpl; try done. by destruct (lstrip s). Qed.

Create HintDb ordinary.
#[local] Hint Resolve ordinary_py_get ordinary_py_getitem ordinary_py_in
  ordinary_py_items ordinary_py_iter ordinary_py_prefix ordinary_clean
  ordinary_split_first : ordinary.











(** ** The retry loop hands on what the operation gave *)

Lemma retry_loop_from {F} {ops : Retry.FloatOps F} {S A}
    (func : @Retry.Operation S A) (config : Retry.RetryConfig F)
    (classes : list PyClass) (attempts : list Z) (last : option PyError)
    (w w' : Retry.World F S) (out : Retry.Outcome A) :
  Retry.retry_loop func config classes attempts last w = (out, w') ->
  match out with
  | Retry.Returned result => exists s, fst (func s) = inr result
  | Retry.Raised e => last = Some e \/ exists s, fst (func s) = inl e
  | Retry.RaisedNone => last = None
  end.
Proof.
  revert last w. induction attempts as [|attempt rest IH]; intros last w;
    simpl.
  - intros [= <- <-]. destruct last; [by left|done].
  - destruct (func (Retry.op_state w)) as [[e|result] s'] eqn:Hf.
    + destruct (isinstance e classes).
      * destruct (attempt =? Retry.max_retries config)%Z.
        -- intros [= <- <-]. right. exists (Retry.op_state w). by rewrite Hf.
        -- intros Hrun. apply IH in Hrun. destruct out as [r|e'|]; [done| |done].
           destruct Hrun as [[= <-]|Hs]; [|by right].
           right. exists (Retry.op_state w). by rewrite Hf.
      * intros [= <- <-]. right. exists (Retry.op_state w). by rewrite Hf.
    + intros [= <- <-]. exists (Retry.op_state w). by rewrite Hf.
Qed.

Section Item.
Context {S FS : Type}.
Variable run : string -> string -> @Retry.Operation S Json.
Variable write_json : Path -> Json -> FS -> Result FS.
Variable read_json : Path -> FS -> Result Json.
Variable uuid4 : nat -> string.
Variable now_ist : nat -> string.
Variable current_timestamp : nat -> Z.

Local Abbreviation scrape := (scrape_mode_with_retry run).
Local Abbreviation stages := (transform write_json read_json uuid4 now_ist).
Local Abbreviation one_mode :=
  (process_mode write_json read_json uuid4 now_ist current_timestamp).
Local Abbreviation item :=
  (process_item run write_json read_json uuid4 now_ist current_timestamp).
Local Abbreviation chunk_run :=
  (process_chunk run write_json read_json uuid4 now_ist current_timestamp).

(** X15: The data that [_scrape_mode_with_retry] hands on is a result that
    the Scrape Task returned: not empty and not of status "FAILED"; and
    the mode it is tagged with is the mode asked for. *)
Theorem scrape_hands_on_payload (hs mode : string) (w w' : Retry.World Q S)
    (tag : string) (data : option Json) :
  scrape hs mode w = (inr (tag, data), w') ->
  tag = mode /\
  forall result, data = Some result ->
    py_truthy result = true /\
    py_get result "status" JNull <> inr (JStr "FAILED") /\
    exists s, fst (run mode hs s) = inr result.
Proof.
  unfold scrape_mode_with_retry.
  destruct (Retry.retry_async _ _ _ _) as [out w1] eqn:Hrun.
  apply retry_loop_from in Hrun.
  destruct out as [result|e|].
  - destruct (py_truthy result) eqn:Htruthy.
    + destruct (py_get result "status" JNull) as [e|status] eqn:Hstatus.
      * intros [= <- <- <-]. done.
      * destruct status as [| | | |s| |];
          try (intros [= <- <- <-]; split; [done|];
               intros ? [= <-]; by rewrite Hstatus).
        destruct (String.eqb_spec s "FAILED") as [->|Hne].
        -- intros [= <- <- <-]. done.
        -- assert (Hkeep : forall X (a b : X),
                     match s with "FAILED" => a | _ => b end = b).
           { intros X a b. clear -Hne.
             repeat (match goal with
                     | |- context [match ?x with _ => _ end] => destruct x
                     end; try reflexivity).
             done. }
           rewrite Hkeep. intros [= <- <- <-]. split; [done|].
           intros ? [= <-]. rewrite Hstatus. split; [done|].
           split; [congruence|done].
    + intros [= <- <- <-]. done.
  - destruct (isinstance e [ClsException]); [|done].
    intros [= <- <- <-]. done.
  - intros [= <- <- <-]. done.
Qed.

(** ** The rows an item touches *)

Lemma touches_refl (hs : string) (d : Ledger.Table) : touches_only hs d d.
Proof. done. Qed.

Lemma touches_trans (hs : string) (d1 d2 d3 : Ledger.Table) :
  touches_only hs d1 d2 -> touches_only hs d2 d3 -> touches_only hs d1 d3.
Proof.
  intros H12 H23 x. destruct (H12 x) as [Ha Hb], (H23 x) as [Hc Hd].
  split; [intros Hx; by rewrite Hc, Ha|auto].
Qed.

Lemma touches_alter (f : Ledger.Row -> Ledger.Row) (hs : string)
    (d : Ledger.Table) :
  touches_only hs d (alter f hs d).
Proof.
  intros x. split.
  - intros Hx. by rewrite lookup_alter_ne.
  - intros Hx. rewrite lookup_alter. case_decide; [subst|done].
    by rewrite Hx.
Qed.

Lemma touches_mark_failed (hs error : string) (trade_mode : option string)
    (d : Ledger.Table) :
  touches_only hs d (Ledger.mark_failed hs error trade_mode d).
Proof.
  unfold Ledger.mark_failed. repeat case_decide; apply touches_alter.
Qed.

Lemma process_mode_touches (hs trade_mode : string) (result : option Json)
    (st : State S FS) :
  touches_only hs (db st) (db (snd (one_mode hs trade_mode result st))).
Proof.
  destruct result as [result|]; [|done]. unfold process_mode.
  pose proof (transform_db write_json read_json uuid4 now_ist
                trade_mode hs result st) as Hdb.
  destruct (stages trade_mode hs result st) as [[e|[]] st1]; cbn [snd] in Hdb.
  - destruct (isinstance e [ClsException]); unfold with_db; cbn [snd db];
      rewrite ?Hdb; [apply touches_mark_failed|done].
  - destruct (String.eqb trade_mode "export"); unfold with_db; cbn [snd db];
      rewrite Hdb; apply touches_alter.
Qed.

Lemma process_item_touches (hs : string) (st : State S FS) :
  touches_only hs (db st) (db (snd (item hs st))).
Proof.
  unfold process_item.
  destruct (scrape hs "export" (scraper st)) as [r_export w1].
  destruct (scrape hs "import" w1) as [r_import w2].
  destruct r_export as [e|[tag_e export_result]]; [done|].
  destruct r_import as [e|[tag_i import_result]]; [done|].
  set (st0 := mkState w2 (files st) (db st) (ticks st)).
  assert (Hboth : touches_only hs (db st)
            (db (snd (match one_mode hs "export" export_result st0 with
                      | (inl e, st1) => (inl e, st1)
                      | (inr _, st1) =>
                          match one_mode hs "import" import_result st1 with
                          | (inl e, st2) => (inl e, st2)
                          | (inr _, st2) =>
                              match export_result, import_result with
                              | Some _, Some _ =>
                                  (inr tt,
                                   with_db st2
                                     (Ledger.mark_completed hs
                                        (current_timestamp (ticks st2))
                                        (db st2)))
                              | _, _ => (inr tt, st2)
                              end
                          end
                      end)))).
  { pose proof (process_mode_touches hs "export" export_result st0) as H1.
    destruct (one_mode hs "export" export_result st0) as [[e|[]] st1];
      [exact H1|].
    pose proof (process_mode_touches hs "import" import_result st1) as H2.
    simpl in H1, H2.
    destruct (one_mode hs "import" import_result st1) as [[e|[]] st2];
      simpl in *; [by eapply touches_trans|].
    destruct export_result, import_result; simpl;
      try (by eapply touches_trans).
    eapply touches_trans; [exact H1|].
    eapply touches_trans; [exact H2|apply touches_alter]. }
  destruct export_result, import_result; try exact Hboth.
  simpl. apply touches_mark_failed.
Qed.

(** X16: Processing a chunk changes no row of a code outside the chunk, and
    adds no row: a code that the ledger does not hold is scraped but
    never tracked. *)
Theorem chunk_touches_own_rows (chunk : list string) (st : State S FS)
    (x : string) :
  (x ∉ chunk -> db (snd (chunk_run chunk st)) !! x = db st !! x) /\
  (db st !! x = None -> db (snd (chunk_run chunk st)) !! x = None).
Proof.
  revert st. induction chunk as [|hs rest IH]; intros st; simpl; [done|].
  destruct (process_item_touches hs st x) as [Hother Hnone].
  destruct (item hs st) as [[e|[]] st1]; simpl in *.
  - split; [|done]. intros Hx. apply Hother. intros ->. apply Hx. left.
  - destruct (IH st1) as [IHother IHnone]. split.
    + intros Hx. rewrite IHother by (intros Hin; apply Hx; by right).
      apply Hother. intros ->. apply Hx. left.
    + auto.
Qed.

(** ** The exceptions that leave an item *)






(** ** The two paths of an item that end without a failed stage *)

(** X19: When neither mode hands on data, no file is written and the item is
    marked failed as a whole: overall status failed, the mode statuses
    as they were, one more error counted; the item then is no longer in
    the pending work list. *)
Theorem no_data_marks_item_failed (hs : string) (st : State S FS)
    (r : Ledger.Row) (w1 w2 : Retry.World Q S) :
  db st !! hs = Some r ->
  scrape hs "export" (scraper st) = (inr ("export", None), w1) ->
  scrape hs "import" w1 = (inr ("import", None), w2) ->
  exists st' r',
    item hs st = (inr tt, st') /\
    files st' = files st /\
    db st' !! hs = Some r' /\
    Ledger.status r' = Ledger.failed /\
    Ledger.export_status r' = Ledger.export_status r /\
    Ledger.import_status r' = Ledger.import_status r /\
    Ledger.error_count r' = Ledger.error_count r + 1 /\
    Ledger.last_error r'
      = Some "Failed to scrape both export and import after retries" /\
    hs ∉ LedgerQueries.get_pending (db st').
Proof.
  intros Hrow Hexp Himp. unfold process_item. rewrite Hexp, Himp.
  eexists _, _. split; [reflexivity|]. split; [reflexivity|].
  assert (Hlook : forall d, d !! hs = Some r ->
            Ledger.mark_failed hs
              "Failed to scrape both export and import after retries" None d
            !! hs
            = Some (Ledger.mkRow Ledger.failed (Ledger.last_scraped_at r)
                      (Ledger.export_status r) (Ledger.import_status r)
                      (Ledger.export_scraped_at r) (Ledger.import_scraped_at r)
                      (Ledger.error_count r + 1)
                      (Some "Failed to scrape both export and import after retries"))).
  { intros d Hd. unfold Ledger.mark_failed. cbn [decide].
    repeat case_decide; try done. by rewrite lookup_alter_eq, Hd. }
  unfold with_db. cbn [db]. split; [by apply Hlook|].
  repeat (split; [reflexivity|]).
  rewrite LedgerQueries.elem_of_get_pending. intros (r' & Hr' & Hp).
  rewrite (Hlook _ Hrow) in Hr'. by injection Hr' as <-.
Qed.

Lemma stages_ok (trade_mode hs : string) (result : Json) (st : State S FS) :
  fst (stages trade_mode hs result st) = inr tt ->
  db (snd (stages trade_mode hs result st)) = db st /\
  ticks (snd (stages trade_mode hs result st)) = Datatypes.S (ticks st).
Proof.
  unfold transform.
  destruct (JSONWriter_write _ _ _ _ _ _) as [e|[raw_file fs1]]; [done|].
  destruct (Processor.process_raw_payload _ _ _) as [e|processed]; [done|].
  destruct (JSONWriter_write _ _ _ _ _ _) as [e|[processed_file fs2]]; [done|].
  by destruct (write_normalized_file _ _ _ _ _) as [e|[out fs3]].
Qed.

Lemma process_mode_ok (hs trade_mode : string) (result : Json)
    (st : State S FS) :
  fst (stages trade_mode hs result st) = inr tt ->
  exists st',
    one_mode hs trade_mode (Some result) st = (inr tt, st') /\
    ticks st' = Datatypes.S (Datatypes.S (ticks st)) /\
    db st' =
      if String.eqb trade_mode "export" then
        Ledger.mark_export_completed hs
          (current_timestamp (Datatypes.S (ticks st))) (db st)
      else
        Ledger.mark_import_completed hs
          (current_timestamp (Datatypes.S (ticks st))) (db st).
Proof.
  intros Hok. destruct (stages_ok _ _ _ _ Hok) as [Hdb Hticks].
  unfold process_mode.
  destruct (stages trade_mode hs result st) as [[e|[]] st1];
    cbn [fst snd] in *; [done|].
  destruct (String.eqb trade_mode "export"); eexists;
    (split; [reflexivity|]); unfold with_db; cbn [ticks db];
    by rewrite Hdb, Hticks.
Qed.

(** X20: When both modes hand on data and the three stages succeed for both,
    the item ends completed in all three statuses, with the error count
    and the last error as they were, and is no longer in the pending work
    list; the export, import and overall timestamps are read in that
    order, each after the files of its mode are written. *)
Theorem both_modes_complete (hs : string) (st : State S FS)
    (r : Ledger.Row) (export_result import_result : Json)
    (w1 w2 : Retry.World Q S) :
  db st !! hs = Some r ->
  scrape hs "export" (scraper st) = (inr ("export", Some export_result), w1) ->
  scrape hs "import" w1 = (inr ("import", Some import_result), w2) ->
  let st0 := mkState w2 (files st) (db st) (ticks st) in
  let st1 := snd (one_mode hs "export" (Some export_result) st0) in
  fst (stages "export" hs export_result st0) = inr tt ->
  fst (stages "import" hs import_result st1) = inr tt ->
  exists st',
    item hs st = (inr tt, st') /\
    db st' !! hs =
      Some (Ledger.mkRow Ledger.completed
              (Some (current_timestamp (4 + ticks st)))
              Ledger.completed Ledger.completed
              (Some (current_timestamp (1 + ticks st)))
              (Some (current_timestamp (3 + ticks st)))
              (Ledger.error_count r) (Ledger.last_error r)) /\
    hs ∉ LedgerQueries.get_pending (db st').
Proof.
  intros Hrow Hexp Himp st0 st1 Hoke Hoki.
  unfold process_item. rewrite Hexp, Himp. fold st0.
  destruct (process_mode_ok hs "export" export_result st0 Hoke)
    as (st1' & Hmode1 & Hticks1 & Hdb1).
  assert (st1' = st1) as -> by (subst st1; by rewrite Hmode1).
  rewrite Hmode1.
  destruct (process_mode_ok hs "import" import_result st1 Hoki)
    as (st2 & Hmode2 & Hticks2 & Hdb2).
  rewrite Hmode2. cbn [String.eqb Ascii.eqb Bool.eqb] in Hdb1, Hdb2.
  unfold st0 in Hdb1, Hticks1. cbn [db ticks] in Hdb1, Hticks1.
  assert (Hlook :
    Ledger.mark_completed hs (current_timestamp (ticks st2)) (db st2) !! hs =
      Some (Ledger.mkRow Ledger.completed
              (Some (current_timestamp (4 + ticks st)))
              Ledger.completed Ledger.completed
              (Some (current_timestamp (1 + ticks st)))
              (Some (current_timestamp (3 + ticks st)))
              (Ledger.error_count r) (Ledger.last_error r))).
  { unfold Ledger.mark_completed. rewrite lookup_alter_eq, Hdb2, Hdb1.
    unfold Ledger.mark_import_completed, Ledger.mark_export_completed.
    rewrite !lookup_alter_eq, Hrow, Hticks2, Hticks1. reflexivity. }
  eexists. split; [reflexivity|]. unfold with_db. cbn [db].
  split; [exact Hlook|].
  rewrite LedgerQueries.elem_of_get_pending. intros (r' & Hr' & Hp).
  rewrite Hlook in Hr'. by injection Hr' as <-.
Qed.

(** ** The files of the three stages *)



End Item.

(** ** Runs on the in-memory file store *)

(** A site whose reports time out at every attempt. *)
Definition dead_site (mode hs : string) : @Retry.Operation nat Json :=
  fun attempts => (inl TimeoutError, Datatypes.S attempts).

(** A site whose reports load in both modes. *)
Definition good_site (mode hs : string) : @Retry.Operation nat Json :=
  fun attempts => (inr Normalizer.scenario_payload, Datatypes.S attempts).


Definition fixed_uuid (tick : nat) : string :=
  "00000000-0000-4000-8000-000000000000".
Definition fixed_now (tick : nat) : string := "2025-01-15T10:30:00+05:30".
Definition tick_time (tick : nat) : Z := Z.of_nat tick.



Lemma scrape_hands_on_payload_witness :
  py_truthy Normalizer.scenario_payload = true /\
  exists attempts,
    fst (good_site "export" "61091000" attempts)
      = inr Normalizer.scenario_payload.
Proof.
  destruct (scrape_mode_with_retry good_site "61091000" "export"
              (Retry.idle_world 0%nat)) as [r w'] eqn:Hrun.
  assert (r = inr ("export", Some Normalizer.scenario_payload)) as ->.
  { pose proof Hrun as Hc. vm_compute in Hc. by injection Hc as <- _. }
  destruct (scrape_hands_on_payload good_site "61091000" "export" _ _ _ _ Hrun)
    as [_ H].
  destruct (H _ eq_refl) as (Htruthy & _ & Hsite). split; assumption.
Defined.

Lemma chunk_touches_own_rows_witness :
  db (snd (process_chunk good_site mem_write mem_read fixed_uuid fixed_now
             tick_time ["61091001"] fresh_state)) !! "61091000"
    = Some Ledger.new_row /\
  db (snd (process_chunk good_site mem_write mem_read fixed_uuid fixed_now
             tick_time ["61091001"] fresh_state)) !! "61091001" = None.
Proof.
  destruct (chunk_touches_own_rows good_site mem_write mem_read fixed_uuid
              fixed_now tick_time ["61091001"] fresh_state "61091000")
    as [Hother _].
  destruct (chunk_touches_own_rows good_site mem_write mem_read fixed_uuid
              fixed_now tick_time ["61091001"] fresh_state "61091001")
    as [_ Hnone].
  split.
  - rewrite Hother; [vm_compute; reflexivity|].
    intros Hin. apply list_elem_of_singleton in Hin. discriminate Hin.
  - apply Hnone. vm_compute. reflexivity.
Defined.



Lemma no_data_marks_item_failed_witness :
  exists st' r',
    process_item dead_site mem_write mem_read fixed_uuid fixed_now tick_time
      "61091000" fresh_state = (inr tt, st') /\
    db st' !! "61091000" = Some r' /\
    Ledger.status r' = Ledger.failed /\
    Ledger.error_count r' = 1.
Proof.
  destruct (no_data_marks_item_failed dead_site mem_write mem_read fixed_uuid
              fixed_now tick_time "61091000" fresh_state Ledger.new_row
              (snd (scrape_mode_with_retry dead_site "61091000" "export"
                      (Retry.idle_world 0%nat)))
              (snd (scrape_mode_with_retry dead_site "61091000" "import"
                      (snd (scrape_mode_with_retry dead_site "61091000"
                              "export" (Retry.idle_world 0%nat))))))
    as (st' & r' & Hrun & _ & Hrow & Hstatus & _ & _ & Hcount & _).
  - vm_compute. reflexivity.
  - vm_compute. reflexivity.
  - vm_compute. reflexivity.
  - exists st', r'. repeat split; assumption.
Defined.

Lemma both_modes_complete_witness :
  exists st',
    process_item good_site mem_write mem_read fixed_uuid fixed_now tick_time
      "61091000" fresh_state = (inr tt, st') /\
    db st' !! "61091000" =
      Some (Ledger.mkRow Ledger.completed (Some 4) Ledger.completed
              Ledger.completed (Some 1) (Some 3) 0 None).
Proof.
  destruct (both_modes_complete good_site mem_write mem_read fixed_uuid
              fixed_now tick_time "61091000" fresh_state Ledger.new_row
              Normalizer.scenario_payload Normalizer.scenario_payload
              (Retry.mkWorld 1%nat (fun _ => 0%Q) 0%nat [])
              (Retry.mkWorld 2%nat (fun _ => 0%Q) 0%nat []))
    as (st' & Hrun & Hrow & _).
  - vm_compute. reflexivity.
  - vm_compute. reflexivity.
  - vm_compute. reflexivity.
  - vm_compute. reflexivity.
  - vm_compute. reflexivity.
  - exists st'. split; [exact Hrun|exact Hrow].
Defined.


End WorkerPaths.

(** * More of scraper/browser_pool.py: initialization and timed-out
    acquires *)
Module PoolInit.
Import Pool.

(** The pool after [i] rounds of the loop of [initialize()], when no
    other task has run in between. *)
Definition started (size : Z) (i : nat) : System :=
  mkSystem (mkPool size (seq 0 i) [] [] (seq 0 i) false (Z.of_nat i) false) [].

Lemma run_snoc (evs : list Event) (ev : Event) (s : System) :
  run (evs ++ [ev]) s = fst (step ev (run evs s)).
Proof. unfold run. by rewrite fold_left_app. Qed.

Lemma init_round (size : Z) (i : nat) :
  Z.of_nat i < size ->
  init_step (started size i)
    = (started size (Datatypes.S i), [Started i; Returned INITIALIZER]).
Proof.
  intros Hi. unfold init_step, started. cbn [pool initialized init_suspended
    init_index pool_size orb active_browsers available_browsers getters
    putters leases].
  destruct (Z.ltb_spec (Z.of_nat i) size) as [_|]; [|lia].
  rewrite length_seq. unfold full.
  cbn [pool_size available_browsers]. rewrite length_seq.
  destruct (Z.ltb_spec 0 size) as [_|]; [|lia].
  destruct (Z.leb_spec size (Z.of_nat i)) as [|_]; [lia|].
  cbn [andb]. unfold queue_put, full.
  cbn [pool pool_size available_browsers]. rewrite length_seq.
  destruct (Z.ltb_spec 0 size) as [_|]; [|lia].
  destruct (Z.leb_spec size (Z.of_nat i)) as [|_]; [lia|].
  unfold set_queue.
  cbn [andb getters pool_size active_browsers initialized
    init_index init_suspended putters leases available_browsers].
  rewrite Nat2Z.inj_succ. unfold Z.succ.
  replace (seq 0 (Datatypes.S i)) with (seq 0 i ++ [i])
    by (by rewrite seq_S).
  reflexivity.
Qed.

Lemma init_rounds (size : Z) (i : nat) :
  Z.of_nat i <= Z.max 0 size ->
  run (repeat InitStep i) (new_pool size) = started size i.
Proof.
  induction i as [|i IH]; intros Hi; [reflexivity|].
  cbn [repeat]. rewrite repeat_cons, run_snoc, IH by lia.
  cbn [step]. rewrite init_round by lia. reflexivity.
Qed.

(** X22: [initialize()] on a new pool that no other task uses meanwhile
    starts exactly [pool_size] browsers, none for a size of zero or
    below, queues each of them once in the order started, is never
    suspended in a put, and then sets [initialized]; calling it again
    changes nothing. *)
Theorem initialize_starts_pool_size (size : Z) :
  let n := Z.to_nat size in
  let s := run (repeat InitStep (Datatypes.S n)) (new_pool size) in
  s = mkSystem (mkPool size (seq 0 n) [] [] (seq 0 n) true (Z.of_nat n) false)
        [] /\
  step InitStep s = (s, []) /\
  snd (step InitStep (run (repeat InitStep n) (new_pool size))) = [].
Proof.
  intros n s.
  assert (Hs : s = mkSystem (mkPool size (seq 0 n) [] [] (seq 0 n) true
                               (Z.of_nat n) false) []).
  { unfold s. cbn [repeat]. rewrite repeat_cons, run_snoc, init_rounds by lia.
    unfold started. cbn [step init_step pool initialized init_suspended orb
      init_index pool_size].
    destruct (Z.ltb_spec (Z.of_nat n) size) as [|_]; [lia|]. reflexivity. }
  split; [exact Hs|]. split; [by rewrite Hs|].
  rewrite init_rounds by lia. unfold started.
  cbn [step init_step pool initialized init_suspended orb init_index
    pool_size].
  destruct (Z.ltb_spec (Z.of_nat n) size) as [|_]; [lia|]. reflexivity.
Qed.

Lemma remove_task_last (t : Task) (l : list Task) :
  t ∉ l -> remove_task t (l ++ [t]) = l.
Proof.
  induction l as [|x l IH]; intros Hin; simpl.
  - by rewrite Nat.eqb_refl.
  - destruct (Nat.eqb_spec x t) as [->|Hne].
    + exfalso. apply Hin. left.
    + rewrite IH; [done|]. intros H. apply Hin. by right.
Qed.

(** X23: An acquire on a pool without a free browser that ends in its
    timeout raises [asyncio.TimeoutError] and leaves the pool and the
    leases exactly as they were before the acquire. *)
Theorem timed_out_get_leaves_pool (s : System) (t : Task) :
  available_browsers (pool s) = [] ->
  t ∉ getters (pool s) ->
  step (GetBrowser t) s
    = (mkSystem (set_queue (pool s) [] (getters (pool s) ++ [t])
                   (putters (pool s))) (leases s), [Suspended t]) /\
  step (Timeout t) (fst (step (GetBrowser t) s))
    = (s, [Raised t TimeoutError]).
Proof.
  intros Havail Hwait. cbn [step]. unfold get_browser. rewrite Havail.
  split; [reflexivity|]. cbn [fst]. unfold timeout.
  cbn [pool set_queue getters available_browsers putters leases].
  rewrite existsb_elem by (apply elem_of_app; right; left).
  rewrite remove_task_last by exact Hwait.
  destruct s as [[size avail gs ps act ini idx sus] ls].
  cbn in Havail |- *. by rewrite Havail.
Qed.

Lemma timed_out_get_leaves_pool_witness :
  step (Timeout 7%nat)
    (fst (step (GetBrowser 7%nat) (run three_tasks (new_pool 2))))
  = (run three_tasks (new_pool 2), [Raised 7%nat TimeoutError]).
Proof.
  apply (timed_out_get_leaves_pool (run three_tasks (new_pool 2)) 7%nat).
  - reflexivity.
  - apply (bool_decide_unpack _). reflexivity.
Defined.

End PoolInit.

(** * More of utils/request_throttler.py: the length of a pause and the
    order of the returns *)
Module ThrottlerBounds.
Import Throttler.

Local Open Scope Q_scope.


Lemma started_bounds (c : Call) (th : RequestThrottler) :
  issued_at c <= started_at c th /\ lock_free_at th <= started_at c th.
Proof. unfold started_at. split; [apply Q.le_max_l|apply Q.le_max_r]. Qed.

Lemma pause_nonneg (c : Call) (th : RequestThrottler) :
  0 <= overrun c -> 0 <= pause c th.
Proof.
  intros Hover. unfold pause. destruct (Qle_bool _ _) eqn:Hle; [lra|].
  apply Qle_bool_false in Hle. lra.
Qed.

Lemma wait_returns_late (c : Call) (th : RequestThrottler) :
  0 <= overrun c ->
  issued_at c <= fst (wait c th) /\ lock_free_at th <= fst (wait c th).
Proof.
  intros Hover. cbn [wait fst].
  pose proof (pause_nonneg c th Hover).
  destruct (started_bounds c th). split; lra.
Qed.






Lemma serve_length (calls : list Call) (th : RequestThrottler) :
  length (fst (serve calls th)) = length calls.
Proof.
  revert th. induction calls as [|c calls IH]; intros th; cbn [serve];
    [done|].
  specialize (IH (snd (wait c th))).
  destruct (wait c th) as [t th']. cbn [snd] in IH.
  destruct (serve calls th') as [ts th'']. cbn in *. by rewrite IH.
Qed.

Lemma serve_after_lock (calls : list Call) (th : RequestThrottler) :
  Forall (fun c => 0 <= overrun c) calls ->
  Forall (fun t => lock_free_at th <= t) (fst (serve calls th)).
Proof.
  revert th. induction calls as [|c calls IH]; intros th Hall; cbn [serve].
  - apply Forall_nil_2.
  - apply Forall_cons in Hall as [Hc Hall].
    specialize (IH (snd (wait c th)) Hall).
    destruct (wait_returns_late c th Hc) as [_ Hlate].
    destruct (wait c th) as [t th'] eqn:Hwait. cbn [fst snd] in *.
    destruct (serve calls th') as [ts th''] eqn:Hserve.
    cbn [fst snd] in *. apply Forall_cons. split; [exact Hlate|].
    assert (Hfree : lock_free_at th' == t).
    { unfold wait in Hwait. injection Hwait as <- <-. reflexivity. }
    eapply Forall_impl; [exact IH|]. intros t' Ht'. cbn in Ht'. lra.
Qed.

(** X25: The lock serves the calls one after the other: of the calls served,
    none returns before it was issued, and none returns before a call
    that took the lock before it, whatever the hosts. *)
Theorem calls_return_in_order (calls : list Call) (th : RequestThrottler)
    (i j : nat) (ci : Call) (ti tj : Q) :
  Forall (fun c => 0 <= overrun c) calls ->
  (i < j)%nat ->
  calls !! i = Some ci ->
  fst (serve calls th) !! i = Some ti ->
  fst (serve calls th) !! j = Some tj ->
  issued_at ci <= ti /\ ti <= tj.
Proof.
  revert th i j. induction calls as [|c calls IH]; intros th i j Hall Hij;
    [done|].
  apply Forall_cons in Hall as [Hc Hall].
  pose proof (serve_after_lock calls (snd (wait c th)) Hall) as Hafter.
  destruct (wait_returns_late c th Hc) as [Hissued _].
  specialize (IH (snd (wait c th))).
  cbn [serve].
  destruct (wait c th) as [t th'] eqn:Hwait. cbn [fst snd] in *.
  destruct (serve calls th') as [ts th''] eqn:Hserve.
  cbn [fst snd] in *.
  assert (Hfree : lock_free_at th' == t).
  { unfold wait in Hwait. injection Hwait as <- <-. reflexivity. }
  destruct i as [|i], j as [|j]; try lia.
  - cbn. intros [= <-] [= <-] Hj. split; [exact Hissued|].
    rewrite Forall_lookup in Hafter. specialize (Hafter j tj Hj).
    cbn in Hafter. lra.
  - cbn. intros Hci Hti Htj. apply (IH i j Hall); [lia|done..].
Qed.

Lemma calls_return_in_order_witness :
  issued_at (host_a 0) <= 100 /\ 100 <= 406 # 4.
Proof.
  apply (calls_return_in_order [host_a 0; host_a 0; host_b]
           (new_throttler (3 # 2) 3) 0 2 (host_a 0) 100 (406 # 4)).
  - repeat apply Forall_cons_2; [vm_compute; discriminate..|apply Forall_nil_2].
  - lia.
  - reflexivity.
  - vm_compute. reflexivity.
  - vm_compute. reflexivity.
Defined.

End ThrottlerBounds.

(** * pipeline/hs_loader.py

    The file is read as ASCII text and given as the lines that iterating
    over it yields. *)
Module HsLoader.
Import Py.




(** A code of 8 digits. *)
Definition valid (code : string) : Prop :=
  String.length code = 8%nat /\
  forallb is_digit (String.list_ascii_of_string code) = true.

(** ** Properties *)









End HsLoader.

(** * More of utils/hs_code_db.py: the statistics *)
Module LedgerStats.
Import Ledger LedgerQueries.

(** The dict that [get_stats()] returns; [completion_rate] is the number
    that is formatted with one decimal, and [None] stands for the text
    "0%" of an empty table. *)
Record Stats : Type := mkStats {
  total : nat;
  completed_count : nat;
  pending_count : nat;
  export_completed : nat;
  import_completed : nat;
  completion_rate : option Q
}.

(** [SELECT COUNT( * ) FROM hs_codes WHERE <column> = <value>] *)
Definition count_where (column : Row -> Status) (value : Status)
    (db : Table) : nat :=
  size (filter (fun kv => column (snd kv) = value) db).

Definition get_stats (db : Table) : Stats :=
  let total := size db in
  let completed := count_where status Ledger.completed db in
  let pending := count_where status Ledger.pending db in
  let export_completed := count_where export_status Ledger.completed db in
  let import_completed := count_where import_status Ledger.completed db in
  mkStats total completed pending export_completed import_completed
    (if (0 <? total)%nat then
       Some (inject_Z (Z.of_nat completed) / inject_Z (Z.of_nat total)
             * 100)%Q
     else None).

(** ** Properties *)

Lemma size_split (P : string * Row -> Prop) `{!forall x, Decision (P x)}
    (db : Table) :
  size db = (size (filter P db) + size (filter (fun v => ~ P v) db))%nat.
Proof.
  rewrite <- map_size_disj_union by apply map_disjoint_filter_complement.
  by rewrite map_filter_union_complement.
Qed.

Lemma count_where_le (column : Row -> Status) (value : Status) (db : Table) :
  (count_where column value db <= size db)%nat.
Proof. apply map_size_filter. Qed.

(** X27: The statistics count every row once by its overall status: the rows
    that are neither completed nor pending are the failed ones, which the
    statistics do not report; in a ledger where a completed row has both
    modes completed, no more rows are completed than have their export,
    or their import, completed; and the completion rate of a table with
    rows lies between 0 and 100. *)
Theorem stats_partition (db : Table) :
  let s := get_stats db in
  total s
    = (completed_count s + pending_count s
       + count_where status Ledger.failed db)%nat /\
  (completed_covers_modes db ->
   (completed_count s <= export_completed s)%nat /\
   (completed_count s <= import_completed s)%nat) /\
  (db = ∅ -> completion_rate s = None) /\
  (forall rate, completion_rate s = Some rate -> (0 <= rate <= 100)%Q).
Proof.
  cbn zeta. unfold get_stats. cbn [total completed_count pending_count
    export_completed import_completed completion_rate].
  split; [|split; [|split]].
  - unfold count_where.
    rewrite (size_split (fun kv => status (snd kv) = Ledger.completed) db)
      at 1.
    rewrite (size_split (fun kv => status (snd kv) = Ledger.pending)
               (filter (fun kv => ~ status (snd kv) = Ledger.completed) db)).
    rewrite map_filter_filter_l
      by first [apply _ | intros i x _ Hp Hc; cbn in *; congruence].
    rewrite map_filter_filter.
    assert (Hfailed :
      filter (fun '(i, x) =>
                ~ status (snd (i, x)) = Ledger.pending /\
                ~ status (snd (i, x)) = Ledger.completed) db
      = filter (fun kv => status (snd kv) = Ledger.failed) db).
    { apply map_filter_ext. intros i x _. cbn.
      destruct (status x); intuition congruence. }
    rewrite Hfailed. lia.
  - intros Hinv. unfold count_where. split; apply map_subseteq_size,
      map_filter_subseteq_ext; intros i x Hx Hc; cbn in *;
      by destruct (Hinv i x Hx Hc).
  - intros ->. by rewrite map_size_empty.
  - intros rate. destruct (Nat.ltb_spec 0 (size db)) as [Hpos|]; [|done].
    intros [= <-].
    pose proof (count_where_le status Ledger.completed db) as Hle.
    set (c := count_where status Ledger.completed db) in *.
    assert (Hc : (0 <= inject_Z (Z.of_nat c))%Q).
    { change 0%Q with (inject_Z 0). rewrite <- Zle_Qle. lia. }
    assert (Ht : (0 < inject_Z (Z.of_nat (size db)))%Q).
    { change 0%Q with (inject_Z 0). rewrite <- Zlt_Qlt. lia. }
    assert (Hct : (inject_Z (Z.of_nat c) <= inject_Z (Z.of_nat (size db)))%Q).
    { rewrite <- Zle_Qle. lia. }
    split.
    + apply Qmult_le_0_compat; [|done]. apply Qle_shift_div_l; [done|].
      by rewrite Qmult_0_l.
    + assert (Hq : (inject_Z (Z.of_nat c) / inject_Z (Z.of_nat (size db))
                    <= 1)%Q).
      { apply Qle_shift_div_r; [done|]. by rewrite Qmult_1_l. }
      set (q := (inject_Z (Z.of_nat c) / inject_Z (Z.of_nat (size db)))%Q)
        in *.
      clearbody q. lra.
Qed.

Lemma stats_partition_witness :
  (completed_count (get_stats (run sample_history))
   <= export_completed (get_stats (run sample_history)))%nat.
Proof.
  destruct (stats_partition (run sample_history)) as (_ & Hinv & _).
  destruct Hinv as [H _]; [|exact H].
  apply (history_covers sample_history ∅); [vm_compute; reflexivity|].
  intros x r Hx. by rewrite lookup_empty in Hx.
Defined.

End LedgerStats.

(** * engine/task_manager.py

    A task is [Worker(id).run(chunk, year)], given by the id of its
    worker and its chunk; a round is the list of tasks that one
    [asyncio.gather] runs together. *)
Module TaskManager.

Section Rounds.
Context {C : Type}.

(** [enumerate(chunks)], counting from [start]. *)
Fixpoint enumerate (start : nat) (chunks : list C) : list (nat * C) :=
  match chunks with
  | [] => []
  | chunk :: rest => (start, chunk) :: enumerate (S start) rest
  end.

(** [for i, chunk in enumerate(chunks)] with the list [tasks], and the
    [if tasks] after the loop; [gathered] holds the rounds awaited so
    far. *)
Fixpoint run_loop (max_workers : Z) (items : list (nat * C))
    (tasks : list (nat * C)) (gathered : list (list (nat * C)))
  : list (list (nat * C)) :=
  match items with
  | [] =>
      match tasks with
      | [] => gathered
      | _ :: _ => gathered ++ [tasks]
      end
  | (i, chunk) :: rest =>
      let tasks := tasks ++ [(S i, chunk)] in
      if Z.of_nat (length tasks) =? max_workers then
        run_loop max_workers rest [] (gathered ++ [tasks])
      else run_loop max_workers rest tasks gathered
  end.

(** [run_workers(chunks, year, max_workers)]: the rounds it awaits. *)
Definition run_workers (chunks : list C) (max_workers : Z)
  : list (list (nat * C)) :=
  run_loop max_workers (enumerate 0 chunks) [] [].

(** The tasks of the chunks: worker [i + 1] for the chunk at index [i]. *)
Definition tasks_of (items : list (nat * C)) : list (nat * C) :=
  map (fun ic => (S (fst ic), snd ic)) items.

(** ** Properties *)

Lemma run_loop_concat (max_workers : Z) (items tasks : list (nat * C))
    (gathered : list (list (nat * C))) :
  concat (run_loop max_workers items tasks gathered)
    = concat gathered ++ tasks ++ tasks_of items.
Proof.
  revert tasks gathered.
  induction items as [|[i chunk] items IH]; intros tasks gathered;
    cbn [run_loop tasks_of map fst snd].
  - destruct tasks as [|t tasks]; [by rewrite !app_nil_r|].
    by rewrite concat_app, app_nil_r; cbn; rewrite app_nil_r.
  - destruct (_ =? _); rewrite IH.
    + rewrite concat_app. cbn. by rewrite app_nil_r, <- !app_assoc.
    + by rewrite <- app_assoc.
Qed.

Lemma run_loop_bounded (max_workers : Z) (items tasks : list (nat * C))
    (gathered : list (list (nat * C))) :
  Z.of_nat (length tasks) < max_workers ->
  exists full rest,
    run_loop max_workers items tasks gathered = gathered ++ full ++ rest /\
    Forall (fun round => Z.of_nat (length round) = max_workers) full /\
    (rest = [] \/
     exists round, rest = [round] /\ round <> [] /\
                   Z.of_nat (length round) < max_workers).
Proof.
  revert tasks gathered.
  induction items as [|[i chunk] items IH]; intros tasks gathered Hlen;
    cbn [run_loop].
  - destruct tasks as [|t tasks].
    + exists [], []. rewrite app_nil_r. by auto.
    + exists [], [t :: tasks]. split; [done|]. split; [done|].
      right. by exists (t :: tasks).
  - destruct (Z.eqb_spec (Z.of_nat (length (tasks ++ [(S i, chunk)])))
                max_workers) as [Heq|Hne].
    + destruct (IH [] (gathered ++ [tasks ++ [(S i, chunk)]]))
        as (full & rest & -> & Hfull & Hrest); [cbn; lia|].
      exists ((tasks ++ [(S i, chunk)]) :: full), rest.
      split; [by rewrite <- !app_assoc|]. split; [|done].
      by apply Forall_cons.
    + apply IH. rewrite length_app in *. cbn in *. lia.
Qed.

Lemma run_loop_unbounded (max_workers : Z) (items tasks : list (nat * C))
    (gathered : list (list (nat * C))) :
  max_workers <= 0 ->
  run_loop max_workers items tasks gathered =
    match tasks ++ tasks_of items with
    | [] => gathered
    | _ :: _ => gathered ++ [tasks ++ tasks_of items]
    end.
Proof.
  intros Hm. revert tasks.
  induction items as [|[i chunk] items IH]; intros tasks;
    cbn [run_loop tasks_of map fst snd].
  - rewrite app_nil_r. by destruct tasks.
  - destruct (Z.eqb_spec (Z.of_nat (length (tasks ++ [(S i, chunk)])))
                max_workers) as [Heq|_].
    { rewrite length_app in Heq. cbn in Heq. lia. }
    rewrite IH. fold (tasks_of items). by rewrite <- app_assoc.
Qed.

(** X28: [run_workers] runs one worker per chunk, worker i+1 for the chunk at
    index i, each once and in order; with [max_workers >= 1] every round
    but the last gathers exactly [max_workers] workers and the last at
    most as many; with [max_workers <= 0] the limit never applies and all
    workers run in one round. *)
Theorem run_workers_rounds (chunks : list C) (max_workers : Z) :
  concat (run_workers chunks max_workers) = tasks_of (enumerate 0 chunks) /\
  (1 <= max_workers ->
   exists full rest,
     run_workers chunks max_workers = full ++ rest /\
     Forall (fun round => Z.of_nat (length round) = max_workers) full /\
     (rest = [] \/
      exists round, rest = [round] /\ round <> [] /\
                    Z.of_nat (length round) < max_workers)) /\
  (max_workers <= 0 -> chunks <> [] ->
   run_workers chunks max_workers = [tasks_of (enumerate 0 chunks)]).
Proof.
  unfold run_workers. split; [apply run_loop_concat|]. split.
  - intros Hm.
    destruct (run_loop_bounded max_workers (enumerate 0 chunks) [] [])
      as (full & rest & Hrun & Hfull & Hrest); [cbn; lia|].
    by exists full, rest.
  - intros Hm Hne. rewrite run_loop_unbounded by done. cbn [app].
    destruct chunks as [|chunk chunks]; done.
Qed.

End Rounds.

Lemma run_workers_rounds_witness :
  run_workers ["a"; "b"; "c"; "d"; "e"] 2
    = [[(1, "a"); (2, "b")]; [(3, "c"); (4, "d")]]%nat ++ [[(5%nat, "e")]] /\
  run_workers ["a"; "b"; "c"] 0 = [[(1, "a"); (2, "b"); (3, "c")]%nat].
Proof.
  destruct (run_workers_rounds ["a"; "b"; "c"] 0) as (_ & _ & Hall).
  destruct (run_workers_rounds ["a"; "b"; "c"; "d"; "e"] 2)
    as (_ & Hrounds & _).
  destruct Hrounds as (full & rest & Hrun & _); [lia|].
  split; [reflexivity|]. apply Hall; [lia|discriminate].
Defined.

End TaskManager.

(** * scraper/summary_parser.py, and what the Process stage keeps of it

    The page is given by what its queries return: the texts of the
    header cells of the second header row, and the texts of the cells of
    each footer row. *)
Module SummaryParser.
Import Py.

(** [s.replace(a, b)] for single characters *)
Fixpoint replace_char (a b : ascii) (s : string) : string :=
  match s with
  | EmptyString => EmptyString
  | String c s' =>
      String (if Ascii.eqb c a then b else c) (replace_char a b s')
  end.

(** [s.replace(" ", "")] *)
Fixpoint remove_spaces (s : string) : string :=
  match s with
  | EmptyString => EmptyString
  | String c s' =>
      if Ascii.eqb c " " then remove_spaces s' else String c (remove_spaces s')
  end.

(** The list [years] that the loop over [year_headers] builds. *)
Definition years_of (header_texts : list string) : list string :=
  map remove_spaces
    (List.filter (fun txt => is_substring "-" txt) (map strip header_texts)).

(** [cells[i] if len(cells) > i + 1 else None] *)
Definition cell (cells : list string) (i : nat) : Json :=
  if (S i <? length cells)%nat then JStr (nth i cells "") else JNull.

(** One block of the summary: a dict display with three keys. *)
Definition figures (y1 y2 : string) (first second growth : Json) : Json :=
  JDict (dict_update []
           [(replace_char "-" "_" y1, first);
            (replace_char "-" "_" y2, second);
            ("growth_percent", growth)]).

(** [SummaryParser(page).parse()]; [JNull] is [None]. *)
Definition parse (header_texts : list string) (rows : list (list string))
  : Json :=
  match years_of header_texts with
  | y1 :: y2 :: _ =>
      match rows with
      | row0 :: row1 :: row2 :: _ =>
          let total := map strip row0 in
          let india := map strip row1 in
          let share := map strip row2 in
          JDict [("total_exports_selected_countries",
                  figures y1 y2 (cell total 1) (cell total 2) (cell total 3));
                 ("india_total_exports",
                  figures y1 y2 (cell india 1) (cell india 2) (cell india 3));
                 ("share_of_india_exports_percent",
                  figures y1 y2 (cell share 1) (cell share 2) JNull)]
      | _ => JNull
      end
  | _ => JNull
  end.

(** The keys that [Processor.clean_summary] reads the two yearly figures
    from. *)
Definition read_keys : list string := ["2023_24"; "2024_25"].

(** ** Properties *)

Lemma replace_char_length (a b : ascii) (s : string) :
  String.length (replace_char a b s) = String.length s.
Proof. induction s as [|c s IH]; simpl; [done|]. by rewrite IH. Qed.

Lemma cell_cleans (cells : list string) (i : nat) :
  exists v, Processor.clean (cell cells i) = inr v.
Proof. unfold cell. destruct (_ <? _)%nat; by eexists. Qed.

Lemma figures_lost (k1 k2 : string) (first second growth : Json)
    (summary : Json) (name : string) :
  k1 ∉ read_keys -> k2 ∉ read_keys ->
  (exists v, Processor.clean growth = inr v) ->
  py_getitem summary name
    = inr (JDict (dict_update [] [(k1, first); (k2, second);
                                  ("growth_percent", growth)])) ->
  exists v,
    Processor.clean_figures summary name
      = inr (JDict [("prev", JNull); ("curr", JNull); ("growth", v)]).
Proof.
  intros Hk1 Hk2 [v Hv] Hget.
  assert (Hmiss : forall k, k ∈ read_keys ->
            py_get (JDict (dict_update [] [(k1, first); (k2, second);
                                           ("growth_percent", growth)]))
              k JNull = inr JNull).
  { intros k Hk. unfold py_get.
    rewrite TransformFacts.dict_update_other; [done|].
    cbn. intros Hin. apply elem_of_cons in Hin as [->|Hin]; [done|].
    apply elem_of_cons in Hin as [->|Hin]; [done|].
    apply list_elem_of_singleton in Hin as ->.
    unfold read_keys in Hk.
    apply elem_of_cons in Hk as [Hk|Hk]; [discriminate Hk|].
    apply list_elem_of_singleton in Hk. discriminate Hk. }
  assert (Hgrowth :
            py_get (JDict (dict_update [] [(k1, first); (k2, second);
                                           ("growth_percent", growth)]))
              "growth_percent" JNull = inr growth).
  { unfold py_get, dict_update. cbn [fold_left fst snd].
    rewrite TransformFacts.dict_lookup_set. by rewrite String.eqb_refl. }
  exists v. unfold Processor.clean_figures. rewrite Hget. cbn [bind].
  rewrite (Hmiss "2023_24") by (apply (bool_decide_unpack _); reflexivity).
  cbn [bind Processor.clean].
  rewrite (Hmiss "2024_25") by (apply (bool_decide_unpack _); reflexivity).
  cbn [bind Processor.clean]. rewrite Hgrowth. cbn [bind]. rewrite Hv.
  reflexivity.
Qed.

Lemma long_key_not_read (y : string) :
  String.length y <> 7%nat -> replace_char "-" "_" y ∉ read_keys.
Proof.
  intros Hlen Hin. apply Hlen. rewrite <- (replace_char_length "-" "_" y).
  unfold read_keys in Hin.
  apply elem_of_cons in Hin as [->|Hin]; [reflexivity|].
  apply list_elem_of_singleton in Hin as ->. reflexivity.
Qed.

(** X29: The Process stage reads the two yearly figures of a summary under
    the keys "2023_24" and "2024_25", while the parser files them under
    the year headers of the page with the dash replaced: whenever the
    first two year headers are not 7 characters long, as for headers of
    the form 2023-2024, the cleaned summary has no yearly figure left;
    prev and curr are [None] in all three blocks. *)
Theorem summary_years_lost (header_texts : list string)
    (rows : list (list string)) (y1 y2 : string) (more : list string) :
  years_of header_texts = y1 :: y2 :: more ->
  String.length y1 <> 7%nat -> String.length y2 <> 7%nat ->
  (3 <= length rows)%nat ->
  exists cleaned,
    Processor.clean_summary (parse header_texts rows) = inr cleaned /\
    forall name,
      name ∈ ["total_exports_selected_countries"; "india_total_exports";
              "share_of_india_exports_percent"] ->
      Normalizer.summary_field cleaned name "prev" = inr JNull /\
      Normalizer.summary_field cleaned name "curr" = inr JNull.
Proof.
  intros Hyears Hy1 Hy2 Hrows. unfold parse. rewrite Hyears.
  destruct rows as [|row0 [|row1 [|row2 rows]]]; cbn in Hrows; try lia.
  apply long_key_not_read in Hy1, Hy2.
  match goal with
  | |- context [Processor.clean_summary ?s] => set (summary := s)
  end.
  unfold Processor.clean_summary.
  change (negb (py_truthy summary)) with false. cbn iota.
  destruct (figures_lost _ _ (cell (map strip row0) 1)
              (cell (map strip row0) 2) (cell (map strip row0) 3)
              summary "total_exports_selected_countries" Hy1 Hy2)
    as [v1 ->]; [apply cell_cleans|reflexivity|].
  destruct (figures_lost _ _ (cell (map strip row1) 1)
              (cell (map strip row1) 2) (cell (map strip row1) 3)
              summary "india_total_exports" Hy1 Hy2)
    as [v2 ->]; [apply cell_cleans|reflexivity|].
  destruct (figures_lost _ _ (cell (map strip row2) 1)
              (cell (map strip row2) 2) JNull
              summary "share_of_india_exports_percent" Hy1 Hy2)
    as [v3 ->]; [by eexists|reflexivity|].
  cbn [bind]. eexists. split; [reflexivity|].
  intros name Hin.
  repeat (apply elem_of_cons in Hin as [->|Hin]; [split; reflexivity|]).
  by apply elem_of_nil in Hin.
Qed.

Lemma summary_years_lost_witness :
  exists cleaned,
    Processor.clean_summary
      (parse ["Country"; "2023-2024"; "2024-2025"; "%Growth"]
         [["Total"; "37,036.8"; "38,000.1"; "2.60"; ""];
          ["India's Total"; "437,000.0"; "441,000.0"; "0.92"; ""];
          ["%Share"; "8.47"; "8.62"; ""]]) = inr cleaned /\
    Normalizer.summary_field cleaned "india_total_exports" "prev" = inr JNull.
Proof.
  destruct (summary_years_lost
              ["Country"; "2023-2024"; "2024-2025"; "%Growth"]
              [["Total"; "37,036.8"; "38,000.1"; "2.60"; ""];
               ["India's Total"; "437,000.0"; "441,000.0"; "0.92"; ""];
               ["%Share"; "8.47"; "8.62"; ""]]
              "2023-2024" "2024-2025" [])
    as (cleaned & Hclean & Hlost).
  - reflexivity.
  - discriminate.
  - discriminate.
  - cbn. lia.
  - exists cleaned. split; [exact Hclean|].
    apply Hlost. apply (bool_decide_unpack _). reflexivity.
Defined.

End SummaryParser.
